(** * quiz-utils: questions, multiple-choice questions and the quiz runner

    A shallow embedding of [quiz-utils.py] and the properties of its three
    entry points, [Question.ask], [MultiChoiceQuestion.ask] and [run_quiz].

    Python values are modelled as follows.
    - [str] is [string]; the only operations the program uses on strings are
      equality, concatenation and [str.lower], and [lower] is left abstract
      (a field of [Runtime]), so nothing below depends on how case folding
      treats any particular character.
    - [int] is [Z].
    - A [list[str]] is a mutable object: it lives in the [heap] and is
      referred to by a location.  [self.answers + self.wrong_answers]
      allocates, [shuffle] updates in place.
    - The local [dict] [option_list] is an insertion-ordered association list.
    - [print] and [input] act on a [world] holding the pending lines of
      standard input and the trace of what was written and read; [input] at end
      of input raises [EOFError].
    - [random.shuffle] is a field of [Runtime]: any function that permutes its
      argument, threading the generator state. *)

From stdpp Require Import list sets strings pretty.
From Stdlib Require Import ZArith Ascii.

Local Open Scope Z_scope.

(** ** The runtime the program is linked against *)

Class Runtime := {
  (** [str.lower] *)
  lower : string → string;
  (** [random.shuffle], as a function of the generator state *)
  shuffle_list : nat → list string → list string * nat;
  shuffle_list_perm : ∀ g l, (shuffle_list g l).1 ≡ₚ l;
}.

(** ** Exceptions, the world, and the monad of Python statements *)

Definition loc := nat.

Inductive exn :=
  | ValueError (msg : string)
  | EOFError
  | KeyError (key : string)
  | IndexError
  | InvalidRef (l : loc).

Inductive event :=
  | Print (text : string)    (* print(text) *)
  | Prompt (text : string)   (* the prompt input(text) writes *)
  | Read (line : string).    (* the line input() returned *)

Record world := World {
  stdin : list string;
  trace : list event;
  heap : list (list string);
  rng : nat;
}.

Definition emit (e : event) (w : world) : world :=
  World (stdin w) (trace w ++ [e]) (heap w) (rng w).

Inductive outcome (A : Type) :=
  | Return (a : A)
  | Raise (e : exn).
Arguments Return {A} a.
Arguments Raise {A} e.

Definition M (A : Type) : Type := world → outcome A * world.

#[global] Instance M_ret : MRet M := λ A a w, (Return a, w).

#[global] Instance M_bind : MBind M := λ A B f m w,
  match m w with
  | (Return a, w') => f a w'
  | (Raise e, w') => (Raise e, w')
  end.

Definition raise {A} (e : exn) : M A := λ w, (Raise e, w).

(** *** Built-ins *)

Definition print (text : string) : M unit :=
  λ w, (Return (), emit (Print text) w).

Definition input (prompt : string) : M string :=
  λ w,
    match stdin w with
    | [] => (Raise EOFError, emit (Prompt prompt) w)
    | line :: rest =>
        (Return line,
         World rest (trace w ++ [Prompt prompt; Read line]) (heap w) (rng w))
    end.

(** Reading the contents of a list object. *)
Definition load (l : loc) : M (list string) :=
  λ w,
    match heap w !! l with
    | Some xs => (Return xs, w)
    | None => (Raise (InvalidRef l), w)
    end.

(** A new list object. *)
Definition alloc (xs : list string) : M loc :=
  λ w, (Return (length (heap w)),
        World (stdin w) (trace w) (heap w ++ [xs]) (rng w)).

(** [shuffle(x)]: permutes the list object [x] in place. *)
Definition shuffle `{Runtime} (x : loc) : M unit :=
  λ w,
    match heap w !! x with
    | Some xs =>
        let '(ys, g) := shuffle_list (rng w) xs in
        (Return (), World (stdin w) (trace w) (<[x := ys]> (heap w)) g)
    | None => (Raise (InvalidRef x), w)
    end.

(** [x in xs] on a list of strings. *)
Definition contains (x : string) (xs : list string) : bool :=
  bool_decide (x ∈ xs).

(** [len(xs)] *)
Definition len {A} (xs : list A) : Z := Z.of_nat (length xs).

(** [str(n)] / ["{}".format(n)] for an [int]. *)
Definition str_of_int (n : Z) : string := pretty n.

(** ["\n"] *)
Definition newline : string := String "010"%char "".

(** [string.ascii_lowercase] *)
Definition ascii_lowercase : string := "abcdefghijklmnopqrstuvwxyz".

(** [list(s)]: the characters of [s], each as a string of length one. *)
Fixpoint list_of_str (s : string) : list string :=
  match s with
  | "" => []
  | String c s' => String c "" :: list_of_str s'
  end.

(** *** Dictionaries (insertion ordered) *)

Definition dict := list (string * string).

(** [d[k] = v]: overwrite in place when the key is present, append otherwise. *)
Fixpoint dict_setitem (d : dict) (k v : string) : dict :=
  match d with
  | [] => [(k, v)]
  | (k', v') :: d' =>
      if bool_decide (k' = k) then (k', v) :: d'
      else (k', v') :: dict_setitem d' k v
  end.

Definition dict_keys (d : dict) : list string := d.*1.
Definition dict_values (d : dict) : list string := d.*2.
Definition dict_items (d : dict) : list (string * string) := d.

Fixpoint dict_lookup (d : dict) (k : string) : option string :=
  match d with
  | [] => None
  | (k', v') :: d' => if bool_decide (k' = k) then Some v' else dict_lookup d' k
  end.

(** [d[k]] *)
Definition dict_getitem (d : dict) (k : string) : M string :=
  match dict_lookup d k with
  | Some v => mret v
  | None => raise (KeyError k)
  end.

(** ** class Question *)

Record Question := {
  question : string;
  answers : loc;
}.

Definition Question_init (question : string) (answers : loc) : M Question :=
  mret {| question := question; answers := answers |}.

Definition Question_ask `{Runtime} (self : Question) : M Z :=
  print (question self);;
  user_answer ← input "Your answer: ";
  self_answers ← load (answers self);
  if contains (lower user_answer) (lower <$> self_answers) then
    print "Correct!";; mret 1
  else
    print "Incorrect!";; mret 0.

(** ** class MultiChoiceQuestion(Question) *)

Record MultiChoiceQuestion := {
  base :> Question;
  wrong_answers : loc;
}.

Definition too_many_options (total : Z) : string :=
  "Combined length of correct and incorrect answer lists must be 26 or less. Total options received: "
  +:+ str_of_int total.

Definition MultiChoiceQuestion_init (question : string) (answers wrong_answers : loc)
    : M MultiChoiceQuestion :=
  xs ← load answers;
  ys ← load wrong_answers;
  if 26 <? len xs + len ys then
    raise (ValueError (too_many_options (len xs + len ys)))
  else
    super ← Question_init question answers;
    mret {| base := super; wrong_answers := wrong_answers |}.

(** The [for letter, option in zip(...)] loop that fills [option_list]. *)
Definition assign_letters (all_options : list string) : dict :=
  foldl (λ option_list '(letter, option), dict_setitem option_list letter option)
        [] (zip (list_of_str ascii_lowercase) all_options).

Definition format_option (key value : string) : string :=
  key +:+ ") " +:+ value.

Definition full_question_text (question : string) (option_list : dict) : string :=
  question +:+ newline
  +:+ String.concat newline
        ((λ '(key, value), format_option key value) <$> dict_items option_list).

(** How one run of the body of [while not valid_input] ends: at one of its
    [return] statements, or at the end of the body with the value the local
    variable [valid_input] then has. *)
Inductive completion :=
  | Returned (score : Z)
  | EndOfBody (valid_input : bool).

Definition loop_body `{Runtime} (self : MultiChoiceQuestion) (option_list : dict)
    (valid_input : bool) (user_answer : string) : M completion :=
  if contains (lower user_answer) (dict_keys option_list) then
    (* valid_input = True *)
    selected ← dict_getitem option_list (lower user_answer);
    self_answers ← load (answers self);
    if contains selected self_answers then
      print "Correct!";; mret (Returned 1)
    else
      print "Incorrect!";; mret (Returned 0)
  else if contains (lower user_answer) (lower <$> dict_values option_list) then
    (* valid_input = True *)
    self_answers ← load (answers self);
    if contains (lower user_answer) (lower <$> self_answers) then
      print "Correct!";; mret (Returned 1)
    else
      print "Incorrect!";; mret (Returned 0)
  else
    print "Please enter one of the options!";; mret (EndOfBody valid_input).

(** The two statements after the loop. *)
Definition after_loop : M Z :=
  print "How is this method still running?";; mret 0.

(** [while not valid_input: ...] followed by the statements after it.  Every
    iteration starts by reading a line, so the loop is defined by recursion on
    the lines still pending on standard input. *)
Fixpoint while_loop_on `{Runtime} (self : MultiChoiceQuestion)
    (option_list : dict) (tail : M Z) (valid_input : bool)
    (pending : list string) (w : world) : outcome Z * world :=
  if valid_input then tail w
  else
    match pending with
    | [] => (Raise EOFError, emit (Prompt "Your answer: ") w)
    | user_answer :: rest =>
        let w1 := World rest (trace w ++ [Prompt "Your answer: "; Read user_answer])
                        (heap w) (rng w) in
        match loop_body self option_list valid_input user_answer w1 with
        | (Return (Returned score), w2) => (Return score, w2)
        | (Return (EndOfBody valid_input'), w2) =>
            while_loop_on self option_list tail valid_input' rest w2
        | (Raise e, w2) => (Raise e, w2)
        end
    end.

(** The loop started in world [w] runs on the lines pending there;
    [while_not_valid_input_unfold] below gives it in its source form. *)
Definition while_not_valid_input `{Runtime} (self : MultiChoiceQuestion)
    (option_list : dict) (tail : M Z) (valid_input : bool) : M Z :=
  λ w, while_loop_on self option_list tail valid_input (stdin w) w.

(** [ask], with the statements that follow the loop as a parameter. *)
Definition MultiChoiceQuestion_ask_then `{Runtime} (tail : M Z)
    (self : MultiChoiceQuestion) : M Z :=
  self_answers ← load (answers self);
  self_wrong_answers ← load (wrong_answers self);
  all_options ← alloc (self_answers ++ self_wrong_answers);
  shuffle all_options;;
  shuffled ← load all_options;
  let option_list := assign_letters shuffled in
  print (full_question_text (question self) option_list);;
  let valid_input := false in
  while_not_valid_input self option_list tail valid_input.

Definition MultiChoiceQuestion_ask `{Runtime} (self : MultiChoiceQuestion) : M Z :=
  MultiChoiceQuestion_ask_then after_loop self.

(** ** run_quiz *)

(** Elements of [questions]: instances of [Question] or of its subclass;
    [ask] dispatches on the class. *)
Inductive question_object :=
  | FreeText (q : Question)
  | MultiChoice (q : MultiChoiceQuestion).

Definition ask `{Runtime} (q : question_object) : M Z :=
  match q with
  | FreeText q => Question_ask q
  | MultiChoice q => MultiChoiceQuestion_ask q
  end.

(** [questions[i]] *)
Definition getitem {A} (xs : list A) (i : nat) : M A :=
  match xs !! i with
  | Some x => mret x
  | None => raise IndexError
  end.

(** The body of [for i in range(0, len(questions))], iterated over the indices
    [indices], with the running [score]. *)
Fixpoint for_each_index `{Runtime} (questions : list question_object)
    (question_separator : string) (first_question_num : Z)
    (indices : list nat) (score : Z) : M Z :=
  match indices with
  | [] => mret score
  | i :: indices' =>
      print question_separator;;
      print ("Question " +:+ str_of_int (Z.of_nat i + first_question_num));;
      print question_separator;;
      q ← getitem questions i;
      result ← ask q;
      for_each_index questions question_separator first_question_num indices'
                     (score + result)
  end.

Definition run_quiz `{Runtime} (questions : list question_object)
    (score_per_question : Z) (question_separator : string)
    (first_question_num : Z) : M Z :=
  if len questions =? 0 then
    raise (ValueError "A quiz needs to have questions!")
  else
    score ← for_each_index questions question_separator first_question_num
                           (seq 0 (length questions)) 0;
    print question_separator;;
    print ("Your score: " +:+ str_of_int score);;
    print question_separator;;
    mret score.

(** ** The specification's vocabulary *)

(** AnswerMatcher: [input] equals some candidate once both are lowercased. *)
Definition case_insensitive_member `{Runtime} (input : string)
    (candidates : list string) : Prop :=
  ∃ candidate, candidate ∈ candidates ∧ lower candidate = lower input.

(** The option assignment [ask] builds in world [w]: the letters given to the
    shuffled concatenation of the two answer lists [xs] and [ys]. *)
Definition presented `{Runtime} (w : world) (xs ys : list string) : list string :=
  (shuffle_list (rng w) (xs ++ ys)).1.

Definition option_assignment `{Runtime} (w : world) (xs ys : list string) : dict :=
  assign_letters (presented w xs ys).

(** The three ways a line of input relates to an option assignment. *)
Definition is_letter_key `{Runtime} (option_list : dict) (line : string) : Prop :=
  lower line ∈ dict_keys option_list.

Definition is_option_text `{Runtime} (option_list : dict) (line : string) : Prop :=
  lower line ∈ lower <$> dict_values option_list.

Definition is_invalid `{Runtime} (option_list : dict) (line : string) : Prop :=
  ¬ is_letter_key option_list line ∧ ¬ is_option_text option_list line.

(** The [n]-th lowercase letter, counting from ["a"] at 0. *)
Definition letter (n : nat) : string := String (ascii_of_nat (97 + n)) "".

(** What one rejected line adds to the trace. *)
Definition rejected (line : string) : list event :=
  [Prompt "Your answer: "; Read line; Print "Please enter one of the options!"].

(** The framing [run_quiz] prints before the question at index [i]. *)
Definition heading (question_separator : string) (first_question_num : Z)
    (i : nat) : M unit :=
  print question_separator;;
  print ("Question " +:+ str_of_int (Z.of_nat i + first_question_num));;
  print question_separator.

(** The questions [qs] asked one after the other, the first of them numbered
    as index [i], collecting each result. *)
Fixpoint ask_in_order `{Runtime} (question_separator : string)
    (first_question_num : Z) (i : nat) (qs : list question_object) : M (list Z) :=
  match qs with
  | [] => mret []
  | q :: qs' =>
      heading question_separator first_question_num i;;
      result ← ask q;
      results ← ask_in_order question_separator first_question_num (S i) qs';
      mret (result :: results)
  end.

Definition total (results : list Z) : Z := foldr Z.add 0 results.

(** What the loop may write: the prompt, the line read, and one of three
    messages. *)
Definition loop_event (e : event) : Prop :=
  match e with
  | Print text =>
      text ∈ ["Correct!"; "Incorrect!"; "Please enter one of the options!"]
  | Prompt text => text = "Your answer: "
  | Read _ => True
  end.

(** Whether the character [c] occurs in [s]. *)
Fixpoint mentions (c : ascii) (s : string) : bool :=
  match s with
  | "" => false
  | String c' s' => bool_decide (c' = c) || mentions c s'
  end.

(** A line the loop accepts: a letter key or the text of an option. *)
Definition accepts `{Runtime} (option_list : dict) (line : string) : Prop :=
  is_letter_key option_list line ∨ is_option_text option_list line.

(** The message [ask] prints with a score. *)
Definition feedback (score : Z) : string :=
  if bool_decide (score = 1) then "Correct!" else "Incorrect!".

(** The list references of a question object resolve in heap [h]. *)
Definition refs_resolve (h : list (list string)) (q : question_object) : Prop :=
  match q with
  | FreeText q => is_Some (h !! answers q)
  | MultiChoice q => is_Some (h !! answers q) ∧ is_Some (h !! wrong_answers q)
  end.

(** The mark a line earns on a free-text question whose answers are in [h]. *)
Definition mark `{Runtime} (h : list (list string)) (q : Question)
    (line : string) : Z :=
  match h !! answers q with
  | Some xs => if contains (lower line) (lower <$> xs) then 1 else 0
  | None => 0
  end.

(** Two worlds that differ at most in what was written so far and in the
    case of the letters of the pending lines. *)
Definition same_up_to_case `{Runtime} (w1 w2 : world) : Prop :=
  heap w1 = heap w2 ∧ rng w1 = rng w2 ∧
  lower <$> stdin w1 = lower <$> stdin w2.

(** ** A concrete runtime, for running the program on examples

    Lowercasing of the ASCII letters, and a generator whose [g]-th shuffle
    rotates the list by [g] places (so state 0 leaves the order as it is). *)

Definition ascii_lower_char (c : ascii) : ascii :=
  let n := nat_of_ascii c in
  if ((65 <=? n) && (n <=? 90))%nat then ascii_of_nat (n + 32) else c.

Fixpoint ascii_lower (s : string) : string :=
  match s with
  | "" => ""
  | String c s' => String (ascii_lower_char c) (ascii_lower s')
  end.

Definition rotate_shuffle (g : nat) (l : list string) : list string * nat :=
  (rotate g l, S g).

Definition test_runtime : Runtime :=
  {| lower := ascii_lower;
     shuffle_list := rotate_shuffle;
     shuffle_list_perm := λ g l,
       eq_ind (take (g `mod` length l) l ++ drop (g `mod` length l) l)
              (λ l', rotate g l ≡ₚ l')
              (Permutation_app_comm (drop (g `mod` length l) l)
                                    (take (g `mod` length l) l))
              l (take_drop (g `mod` length l) l) |}.

(** ** Concrete quizzes *)

(** A heap with three answer lists, and two questions over them. *)
Definition capital : Question :=
  {| question := "Capital of France?"; answers := 0%nat |}.

Definition fruit : MultiChoiceQuestion :=
  {| base := {| question := "Pick A"; answers := 1%nat |};
     wrong_answers := 2%nat |}.

Definition quiz_world (lines : list string) (g : nat) : world :=
  World lines [] [["Paris"]; ["Apple"]; ["Banana"]] g.

(** Options that differ from each other in case only, and options that are
    themselves letters. *)
Definition either : MultiChoiceQuestion :=
  {| base := {| question := "Which one?"; answers := 0%nat |};
     wrong_answers := 1%nat |}.

Definition apples_world (lines : list string) : world :=
  World lines [] [["Apple"]; ["apple"]] 0.

Definition letters_world (lines : list string) : world :=
  World lines [] [["b"]; ["a"]] 0.

(** No options at all. *)
Definition empty_world (lines : list string) : world :=
  World lines [] [[]; []] 0.

(** Twenty-seven options: one more than there are letters. *)
Definition crowded_world (lines : list string) : world :=
  World lines [] [replicate 20 "x"; replicate 7 "y"] 0.

(** * Properties *)

(** ** Running statements *)

Ltac run_step :=
  unfold mbind, M_bind, mret, M_ret, raise, print, load, alloc, dict_getitem,
    getitem, Question_init; simpl.

Lemma contains_true x xs : contains x xs = true ↔ x ∈ xs.
Proof. unfold contains. by rewrite bool_decide_eq_true. Qed.

Lemma contains_false x xs : contains x xs = false ↔ x ∉ xs.
Proof. unfold contains. by rewrite bool_decide_eq_false. Qed.

Lemma case_insensitive_member_lower `{Runtime} input candidates :
  case_insensitive_member input candidates ↔ lower input ∈ lower <$> candidates.
Proof.
  unfold case_insensitive_member. rewrite list_elem_of_fmap. split.
  - intros (c & Hc & Heq). eauto.
  - intros (c & Heq & Hc). eauto.
Qed.

Lemma insert_last {A} (h : list A) x v : <[length h := v]> (h ++ [x]) = h ++ [v].
Proof. rewrite insert_app_r_alt by lia. by rewrite Nat.sub_diag. Qed.

(** ** Question.ask *)

Section question.
Context `{Runtime}.

Lemma Question_ask_run (self : Question) w line rest xs :
  stdin w = line :: rest →
  heap w !! answers self = Some xs →
  Question_ask self w =
    let correct := contains (lower line) (lower <$> xs) in
    (Return (if correct then 1 else 0),
     World rest
       (trace w ++ [Print (question self); Prompt "Your answer: "; Read line;
                    Print (if correct then "Correct!" else "Incorrect!")])
       (heap w) (rng w)).
Proof.
  intros Hin Hxs. unfold Question_ask, input. run_step.
  rewrite Hin; simpl. rewrite Hxs; simpl.
  destruct (contains _ _); simpl; unfold emit; simpl;
    by rewrite <- !app_assoc.
Qed.

(** C3: on one line of input, [Question.ask] returns 1 exactly when the line
    equals an entry of the stored answers after lowercasing both (nothing is
    trimmed), and 0 otherwise; with no stored answers it returns 0. *)
Theorem Question_ask_case_insensitive (self : Question) w line rest xs :
  stdin w = line :: rest →
  heap w !! answers self = Some xs →
  ∃ score w',
    Question_ask self w = (Return score, w') ∧
    (score = 1 ↔ lower line ∈ lower <$> xs) ∧
    (score = 1 ↔ case_insensitive_member line xs) ∧
    (score = 0 ↔ ¬ case_insensitive_member line xs) ∧
    (xs = [] → score = 0).
Proof.
  intros Hin Hxs.
  rewrite (Question_ask_run self w line rest xs Hin Hxs). simpl.
  eexists _, _. split; [reflexivity|].
  rewrite case_insensitive_member_lower.
  destruct (contains _ _) eqn:Hc.
  - apply contains_true in Hc. repeat split; try done.
    intros ->. by apply elem_of_nil in Hc.
  - apply contains_false in Hc. repeat split; try done.
Qed.

End question.

(** ** Dictionaries and the option assignment *)

Lemma dict_setitem_fresh (d : dict) k v :
  k ∉ dict_keys d → dict_setitem d k v = d ++ [(k, v)].
Proof.
  unfold dict_keys. induction d as [|[k' v'] d IH]; simpl; [done|].
  intros Hk. apply not_elem_of_cons in Hk as [Hne Hk].
  rewrite bool_decide_eq_false_2 by done. by rewrite IH.
Qed.

Lemma fill_distinct_keys (kvs : list (string * string)) (d : dict) :
  NoDup (dict_keys d ++ kvs.*1) →
  foldl (λ option_list '(letter, option), dict_setitem option_list letter option)
        d kvs = d ++ kvs.
Proof.
  unfold dict_keys. revert d. induction kvs as [|[k v] kvs IH]; intros d Hnd; simpl.
  - by rewrite app_nil_r.
  - simpl in Hnd. apply NoDup_app in Hnd as (Hd & Hdk & Hk).
    apply NoDup_cons in Hk as [Hk1 Hk2].
    rewrite dict_setitem_fresh.
    2:{ intros Hin. apply (Hdk _ Hin). by left. }
    rewrite IH; [by rewrite <- app_assoc|].
    rewrite fmap_app; simpl. rewrite <- app_assoc; simpl.
    apply NoDup_app. split_and!; [done| |by apply NoDup_cons].
    intros x Hx Hx'. by apply (Hdk x Hx).
Qed.

Lemma dict_lookup_key (d : dict) k :
  k ∈ dict_keys d → ∃ v, dict_lookup d k = Some v ∧ v ∈ dict_values d.
Proof.
  unfold dict_keys, dict_values. induction d as [|[k' v'] d IH]; simpl.
  - by intros ?%elem_of_nil.
  - intros Hk. destruct (decide (k' = k)) as [->|Hne].
    + rewrite bool_decide_eq_true_2 by done. eexists; split; [done|by left].
    + rewrite bool_decide_eq_false_2 by done.
      apply elem_of_cons in Hk as [->|Hk]; [done|].
      destruct (IH Hk) as (v & Hv & Hin). eexists; split; [done|by right].
Qed.

Lemma alphabet_letters : list_of_str ascii_lowercase = letter <$> seq 0 26.
Proof. reflexivity. Qed.

Lemma letter_inj n m : letter n = letter m → (n < 159)%nat → (m < 159)%nat → n = m.
Proof.
  unfold letter. intros Heq Hn Hm. injection Heq as Heq.
  apply (f_equal nat_of_ascii) in Heq.
  rewrite !nat_ascii_embedding in Heq by lia. lia.
Qed.

Lemma letters_NoDup n : (n ≤ 26)%nat → NoDup (letter <$> seq 0 n).
Proof.
  intros Hn. apply NoDup_fmap_2_strong; [|apply NoDup_seq].
  intros i j Hi%elem_of_seq Hj%elem_of_seq Heq. apply letter_inj; [done|lia..].
Qed.

Lemma assign_letters_zip all_options :
  assign_letters all_options = zip (letter <$> seq 0 26) all_options.
Proof.
  unfold assign_letters. rewrite alphabet_letters, fill_distinct_keys; [done|].
  simpl dict_keys. rewrite app_nil_l.
  rewrite <- (zip_with_take_l _ _ all_options).
  destruct (decide (length all_options ≤ 26)%nat) as [Hle|Hgt].
  - rewrite fst_zip.
    + rewrite <- fmap_take, take_seq. apply letters_NoDup. lia.
    + rewrite length_take. lia.
  - rewrite take_ge by (rewrite length_fmap, length_seq; lia).
    rewrite <- (zip_with_take_r _ _ all_options).
    rewrite fst_zip.
    + by apply letters_NoDup.
    + rewrite length_take, length_fmap, length_seq. lia.
Qed.

Lemma assign_letters_keys all_options :
  (length all_options ≤ 26)%nat →
  dict_keys (assign_letters all_options) = letter <$> seq 0 (length all_options).
Proof.
  intros Hle. rewrite assign_letters_zip. unfold dict_keys.
  rewrite <- (zip_with_take_l _ _ all_options).
  rewrite fst_zip by (rewrite length_take; lia).
  rewrite <- fmap_take, take_seq. f_equal. f_equal. lia.
Qed.

Lemma assign_letters_values all_options :
  (length all_options ≤ 26)%nat →
  dict_values (assign_letters all_options) = all_options.
Proof.
  intros Hle. rewrite assign_letters_zip. unfold dict_values.
  apply snd_zip. rewrite length_fmap, length_seq. lia.
Qed.

Lemma assign_letters_items all_options :
  (length all_options ≤ 26)%nat →
  dict_items (assign_letters all_options) =
    zip (letter <$> seq 0 (length all_options)) all_options.
Proof.
  intros Hle. unfold dict_items.
  rewrite <- (assign_letters_keys _ Hle).
  rewrite <- (assign_letters_values _ Hle) at 3.
  unfold dict_keys, dict_values. by rewrite zip_fst_snd.
Qed.

(** ** MultiChoiceQuestion.__init__ *)

Lemma MultiChoiceQuestion_init_run question a wa w xs ys :
  heap w !! a = Some xs →
  heap w !! wa = Some ys →
  MultiChoiceQuestion_init question a wa w =
    if 26 <? len xs + len ys then
      (Raise (ValueError (too_many_options (len xs + len ys))), w)
    else
      (Return {| base := {| question := question; answers := a |};
                 wrong_answers := wa |}, w).
Proof.
  intros Hxs Hys. unfold MultiChoiceQuestion_init. run_step.
  rewrite Hxs, Hys. by destruct (26 <? _).
Qed.

(** C2: construction raises the error exactly when the two lists together
    have more than 26 entries; with at most 26 (empty lists included) it
    returns the object holding the three arguments.  Neither case touches
    the world. *)
Theorem MultiChoiceQuestion_init_limit text a wa w xs ys :
  heap w !! a = Some xs →
  heap w !! wa = Some ys →
  ((∃ msg, MultiChoiceQuestion_init text a wa w = (Raise (ValueError msg), w))
     ↔ len xs + len ys > 26) ∧
  ((∃ self, MultiChoiceQuestion_init text a wa w = (Return self, w) ∧
            question self = text ∧ answers self = a ∧ wrong_answers self = wa)
     ↔ len xs + len ys ≤ 26).
Proof.
  intros Hxs Hys.
  rewrite (MultiChoiceQuestion_init_run text a wa w xs ys Hxs Hys).
  destruct (26 <? _) eqn:Hlt.
  - apply Z.ltb_lt in Hlt. split; split.
    + lia.
    + eauto.
    + by intros (self & [=] & _).
    + lia.
  - apply Z.ltb_ge in Hlt. split; split.
    + by intros (msg & [=]).
    + lia.
    + done.
    + eauto.
Qed.

(** ** MultiChoiceQuestion.ask *)

Section multi_choice.
Context `{Runtime}.

Lemma loop_body_run (self : MultiChoiceQuestion) option_list valid_input line w xs :
  heap w !! answers self = Some xs →
  loop_body self option_list valid_input line w =
    if contains (lower line) (dict_keys option_list) then
      match dict_lookup option_list (lower line) with
      | Some selected =>
          let correct := contains selected xs in
          (Return (Returned (if correct then 1 else 0)),
           emit (Print (if correct then "Correct!" else "Incorrect!")) w)
      | None => (Raise (KeyError (lower line)), w)
      end
    else if contains (lower line) (lower <$> dict_values option_list) then
      let correct := contains (lower line) (lower <$> xs) in
      (Return (Returned (if correct then 1 else 0)),
       emit (Print (if correct then "Correct!" else "Incorrect!")) w)
    else
      (Return (EndOfBody valid_input),
       emit (Print "Please enter one of the options!") w).
Proof.
  intros Hxs. unfold loop_body.
  destruct (contains (lower line) (dict_keys option_list)).
  - run_step. destruct (dict_lookup _ _); simpl; [|done].
    rewrite Hxs. by destruct (contains _ _).
  - destruct (contains (lower line) (lower <$> _)); run_step; [|done].
    rewrite Hxs. by destruct (contains _ _).
Qed.

(** The body leaves standard input, the heap and the generator alone. *)
Lemma loop_body_frame (self : MultiChoiceQuestion) option_list valid_input line w r w' :
  loop_body self option_list valid_input line w = (r, w') →
  stdin w' = stdin w ∧ heap w' = heap w ∧ rng w' = rng w.
Proof.
  unfold loop_body. run_step.
  repeat (match goal with
          | |- context [if ?b then _ else _] => destruct b
          | |- context [match ?o with Some _ => _ | None => _ end] => destruct o
          end; simpl);
    by intros [= <- <-].
Qed.

(** An iteration that reaches the end of the body has not changed
    [valid_input]. *)
Lemma loop_body_end (self : MultiChoiceQuestion) option_list valid_input line w
    valid_input' w' :
  loop_body self option_list valid_input line w = (Return (EndOfBody valid_input'), w') →
  valid_input' = valid_input.
Proof.
  unfold loop_body. run_step.
  repeat (match goal with
          | |- context [if ?b then _ else _] => destruct b
          | |- context [match ?o with Some _ => _ | None => _ end] => destruct o
          end; simpl);
    by intros [=].
Qed.

(** The loop, as the source writes it. *)
Lemma while_not_valid_input_unfold (self : MultiChoiceQuestion) option_list tail
    valid_input w :
  while_not_valid_input self option_list tail valid_input w =
    (if valid_input then tail
     else
       user_answer ← input "Your answer: ";
       ended ← loop_body self option_list valid_input user_answer;
       match ended with
       | Returned score => mret score
       | EndOfBody valid_input' =>
           while_not_valid_input self option_list tail valid_input'
       end) w.
Proof.
  unfold while_not_valid_input. destruct valid_input.
  { by destruct (stdin w). }
  unfold mbind, M_bind, input. destruct (stdin w) as [|line rest]; simpl; [done|].
  destruct (loop_body _ _ _ _ _) as [[[score|valid_input']|e] w2] eqn:Hbody;
    [done| |done].
  apply loop_body_frame in Hbody as (Hin & _ & _). simpl in Hin. by rewrite Hin.
Qed.

(** Replacing the statements after the loop changes nothing as long as the
    loop is entered with [valid_input] false. *)
Lemma while_loop_on_tail (self : MultiChoiceQuestion) option_list tail tail' pending w :
  while_loop_on self option_list tail false pending w =
  while_loop_on self option_list tail' false pending w.
Proof.
  revert w. induction pending as [|line rest IH]; intros w; simpl; [done|].
  destruct (loop_body _ _ _ _ _) as [[[score|valid_input']|e] w2] eqn:Hbody;
    [done| |done].
  apply loop_body_end in Hbody as ->. apply IH.
Qed.

(** Lines that match neither a letter nor an option text are each answered
    with the re-prompt, and the loop goes on. *)
Lemma while_loop_on_rejected (self : MultiChoiceQuestion) option_list tail skipped :
  Forall (is_invalid option_list) skipped →
  ∀ pending w,
    stdin w = skipped ++ pending →
    while_loop_on self option_list tail false (skipped ++ pending) w =
    while_loop_on self option_list tail false pending
      (World pending (trace w ++ (skipped ≫= rejected)) (heap w) (rng w)).
Proof.
  induction 1 as [|line skipped [Hkey Htext] _ IH]; intros pending w Hin.
  - simpl in *. rewrite app_nil_r, <- Hin. by destruct w.
  - simpl. unfold loop_body.
    apply contains_false in Hkey as ->. apply contains_false in Htext as ->.
    run_step. rewrite IH by done. simpl. unfold emit; simpl.
    by rewrite <- !app_assoc.
Qed.

(** [ask] up to the loop: the combined list is a new object, shuffled in
    place; the stored lists are where they were. *)
Lemma MultiChoiceQuestion_ask_then_run tail (self : MultiChoiceQuestion) w xs ys :
  heap w !! answers self = Some xs →
  heap w !! wrong_answers self = Some ys →
  MultiChoiceQuestion_ask_then tail self w =
    let shuffled := shuffle_list (rng w) (xs ++ ys) in
    let option_list := assign_letters shuffled.1 in
    while_loop_on self option_list tail false (stdin w)
      (World (stdin w)
             (trace w ++ [Print (full_question_text (question self) option_list)])
             (heap w ++ [shuffled.1]) shuffled.2).
Proof.
  intros Hxs Hys. unfold MultiChoiceQuestion_ask_then, shuffle. run_step.
  rewrite Hxs, Hys. simpl.
  rewrite list_lookup_middle by done.
  destruct (shuffle_list _ _) as [shuffled g]. simpl.
  rewrite insert_last, list_lookup_middle by done. done.
Qed.

End multi_choice.

Section multi_choice_ask.
Context `{Runtime}.

Lemma loop_body_effects (self : MultiChoiceQuestion) option_list valid_input line w r w' :
  loop_body self option_list valid_input line w = (r, w') →
  (w' = w ∨ ∃ text, loop_event (Print text) ∧ w' = emit (Print text) w) ∧
  match r with
  | Return (Returned score) => score = 0 ∨ score = 1
  | Return (EndOfBody _) => True
  | Raise e => (∃ l, e = InvalidRef l) ∨ (∃ k, e = KeyError k)
  end.
Proof.
  unfold loop_body. run_step.
  repeat (match goal with
          | |- context [if ?b then _ else _] => destruct b
          | |- context [match ?o with Some _ => _ | None => _ end] => destruct o
          end; simpl);
    intros [= <- <-]; (split; [|by eauto]);
    first [by left | right; eexists; split; [|done]; simpl; set_solver].
Qed.

Lemma while_loop_on_effects (self : MultiChoiceQuestion) option_list pending :
  ∀ valid_input w r w',
    while_loop_on self option_list (mret 0) valid_input pending w = (r, w') →
    (∃ events, trace w' = trace w ++ events ∧ Forall loop_event events) ∧
    heap w' = heap w ∧ rng w' = rng w ∧
    match r with
    | Return score => score = 0 ∨ score = 1
    | Raise e => e = EOFError ∨ (∃ l, e = InvalidRef l) ∨ (∃ k, e = KeyError k)
    end.
Proof.
  induction pending as [|line rest IH]; intros valid_input w r w'; simpl.
  - destruct valid_input; intros [= <- <-]; simpl.
    + split_and!; [exists []; by rewrite app_nil_r|done..|by left].
    + split_and!; [eexists; split; [done|]; by repeat apply Forall_cons_2|done..|by left].
  - destruct valid_input.
    { intros [= <- <-]. split_and!; [exists []; by rewrite app_nil_r|done..|by left]. }
    destruct (loop_body _ _ _ _ _) as [r1 w2] eqn:Hbody.
    pose proof (loop_body_frame _ _ _ _ _ _ _ Hbody) as (_ & Hheap & Hrng).
    apply loop_body_effects in Hbody as [Hw2 Hr1]. simpl in *.
    assert (∃ events, trace w2 = trace w ++ events ∧ Forall loop_event events)
      as (ev2 & Htr2 & Hev2).
    { destruct Hw2 as [->|(text & Htext & ->)]; simpl.
      - exists [Prompt "Your answer: "; Read line]. split; [done|].
        by repeat apply Forall_cons_2.
      - exists [Prompt "Your answer: "; Read line; Print text].
        rewrite <- app_assoc. split; [done|]. by repeat apply Forall_cons_2. }
    destruct r1 as [[score|valid_input']|e].
    + intros [= <- <-]. split_and!; eauto.
    + intros Hloop. apply IH in Hloop as ((ev & Htr & Hev) & Hheap' & Hrng' & Hr).
      split_and!; [|congruence..|done].
      exists (ev2 ++ ev). rewrite Htr, Htr2, <- app_assoc. split; [done|].
      by apply Forall_app.
    + intros [= <- <-]. split_and!; eauto.
Qed.

End multi_choice_ask.

Section multi_choice_claims.
Context `{Runtime}.

(** [ask] on input that starts with rejected lines [skipped] followed by a
    line that is a letter key or an option text. *)
Lemma MultiChoiceQuestion_ask_answered (self : MultiChoiceQuestion) w xs ys
    skipped line rest :
  heap w !! answers self = Some xs →
  heap w !! wrong_answers self = Some ys →
  stdin w = skipped ++ line :: rest →
  Forall (is_invalid (option_assignment w xs ys)) skipped →
  is_letter_key (option_assignment w xs ys) line
    ∨ is_option_text (option_assignment w xs ys) line →
  ∃ correct : bool,
    MultiChoiceQuestion_ask self w =
      (Return (if correct then 1 else 0),
       World rest
         (trace w
          ++ Print (full_question_text (question self) (option_assignment w xs ys))
               :: (skipped ≫= rejected)
          ++ [Prompt "Your answer: "; Read line;
              Print (if correct then "Correct!" else "Incorrect!")])
         (heap w ++ [presented w xs ys])
         (shuffle_list (rng w) (xs ++ ys)).2) ∧
    (is_letter_key (option_assignment w xs ys) line →
       ∃ selected,
         dict_lookup (option_assignment w xs ys) (lower line) = Some selected ∧
         selected ∈ dict_values (option_assignment w xs ys) ∧
         (correct = true ↔ selected ∈ xs)) ∧
    (¬ is_letter_key (option_assignment w xs ys) line →
       (correct = true ↔ lower line ∈ lower <$> xs)).
Proof.
  intros Hxs Hys Hin Hskipped Hvalid.
  unfold MultiChoiceQuestion_ask.
  rewrite (MultiChoiceQuestion_ask_then_run _ self w xs ys Hxs Hys). simpl.
  fold (presented w xs ys). fold (option_assignment w xs ys).
  set (option_list := option_assignment w xs ys) in *.
  rewrite Hin, while_loop_on_rejected by done. simpl.
  rewrite (loop_body_run self option_list false line _ xs)
    by (simpl; by apply lookup_app_l_Some).
  destruct (contains (lower line) (dict_keys option_list)) eqn:Hkey.
  - apply contains_true in Hkey.
    destruct (dict_lookup_key _ _ Hkey) as (selected & Hsel & Hval).
    rewrite Hsel. simpl. exists (contains selected xs). split_and!.
    + unfold emit; simpl. by rewrite <- !app_assoc.
    + intros _. exists selected. split_and!; [done..|]. apply contains_true.
    + intros []. done.
  - apply contains_false in Hkey.
    destruct Hvalid as [Hk|Htext]; [done|].
    apply contains_true in Htext as ->. simpl.
    exists (contains (lower line) (lower <$> xs)). split_and!.
    + unfold emit; simpl. by rewrite <- !app_assoc.
    + done.
    + intros _. apply contains_true.
Qed.

(** Every presented option comes from one of the two stored lists. *)
Lemma option_assignment_values w xs ys selected :
  selected ∈ dict_values (option_assignment w xs ys) →
  selected ∈ xs ∨ selected ∈ ys.
Proof.
  unfold option_assignment, dict_values. rewrite assign_letters_zip.
  intros ([k v] & -> & Hin%elem_of_zip_r)%list_elem_of_fmap. simpl.
  apply elem_of_app. by rewrite <- (shuffle_list_perm (rng w) (xs ++ ys)).
Qed.

(** C1, as the code has it: once a line selects an option, [ask] returns 1 or
    0; when the line is a letter key, 1 exactly when the option under that
    letter is itself (as written) an entry of the stored answers, and
    when the line is instead the text of an option, 1 exactly when that
    option is a case-insensitive member of the stored answers.  The two
    tests agree, and the letter is scored by case-insensitive membership
    too, when no wrong answer is a right answer written in other case. *)
Theorem MultiChoiceQuestion_ask_score (self : MultiChoiceQuestion) w xs ys
    skipped line rest :
  heap w !! answers self = Some xs →
  heap w !! wrong_answers self = Some ys →
  stdin w = skipped ++ line :: rest →
  Forall (is_invalid (option_assignment w xs ys)) skipped →
  is_letter_key (option_assignment w xs ys) line
    ∨ is_option_text (option_assignment w xs ys) line →
  ∃ score w',
    MultiChoiceQuestion_ask self w = (Return score, w') ∧
    stdin w' = rest ∧
    (score = 0 ∨ score = 1) ∧
    (is_letter_key (option_assignment w xs ys) line →
       ∃ selected,
         dict_lookup (option_assignment w xs ys) (lower line) = Some selected ∧
         (score = 1 ↔ selected ∈ xs)) ∧
    (¬ is_letter_key (option_assignment w xs ys) line →
       ∀ selected,
         selected ∈ dict_values (option_assignment w xs ys) →
         lower selected = lower line →
         (score = 1 ↔ case_insensitive_member selected xs)) ∧
    ((∀ y, y ∈ ys → y ∉ xs → ¬ case_insensitive_member y xs) →
     is_letter_key (option_assignment w xs ys) line →
       ∃ selected,
         dict_lookup (option_assignment w xs ys) (lower line) = Some selected ∧
         (score = 1 ↔ case_insensitive_member selected xs)).
Proof.
  intros Hxs Hys Hin Hskipped Hvalid.
  destruct (MultiChoiceQuestion_ask_answered self w xs ys skipped line rest)
    as (correct & -> & Hkey & Htext); [done..|].
  eexists _, _. split; [reflexivity|]. simpl.
  split; [reflexivity|]. split; [|split; [|split]].
  - destruct correct; auto.
  - intros Hk. destruct (Hkey Hk) as (selected & Hsel & _ & Hc).
    exists selected. split; [done|]. rewrite <- Hc. by destruct correct.
  - intros Hk selected _ Hlow.
    rewrite case_insensitive_member_lower, Hlow, <- (Htext Hk).
    by destruct correct.
  - intros Hdistinct Hk. destruct (Hkey Hk) as (selected & Hsel & Hval & Hc).
    exists selected. split; [done|].
    assert (score_1 : (if correct then 1 else 0) = 1 ↔ selected ∈ xs).
    { rewrite <- Hc. by destruct correct. }
    rewrite score_1. split.
    + intros Hx. by exists selected.
    + intros Hmember. destruct (decide (selected ∈ xs)) as [|Hnot]; [done|].
      apply option_assignment_values in Hval as [?|Hy]; [done|].
      by destruct (Hdistinct selected Hy Hnot).
Qed.

(** C7: a line that is both a letter key and the text of an option is read
    as the letter: the result is decided by the option stored under that
    letter alone. *)
Theorem letter_key_takes_priority (self : MultiChoiceQuestion) w xs ys
    skipped line rest :
  heap w !! answers self = Some xs →
  heap w !! wrong_answers self = Some ys →
  stdin w = skipped ++ line :: rest →
  Forall (is_invalid (option_assignment w xs ys)) skipped →
  is_letter_key (option_assignment w xs ys) line →
  is_option_text (option_assignment w xs ys) line →
  ∃ selected w',
    dict_lookup (option_assignment w xs ys) (lower line) = Some selected ∧
    MultiChoiceQuestion_ask self w =
      (Return (if bool_decide (selected ∈ xs) then 1 else 0), w').
Proof.
  intros Hxs Hys Hin Hskipped Hkey _.
  destruct (MultiChoiceQuestion_ask_answered self w xs ys skipped line rest)
    as (correct & -> & Hk & _); [by auto..|].
  destruct (Hk Hkey) as (selected & Hsel & _ & Hc).
  exists selected.
  destruct correct; eexists; (split; [done|]).
  - rewrite bool_decide_eq_true_2; [done|]. by apply Hc.
  - rewrite bool_decide_eq_false_2; [done|]. intros Hx. by apply Hc in Hx.
Qed.

End multi_choice_claims.

Section multi_choice_presentation.
Context `{Runtime}.

Lemma MultiChoiceQuestion_ask_effects (self : MultiChoiceQuestion) w xs ys r w' :
  heap w !! answers self = Some xs →
  heap w !! wrong_answers self = Some ys →
  MultiChoiceQuestion_ask self w = (r, w') →
  (∃ events,
     trace w' =
       trace w
       ++ Print (full_question_text (question self) (option_assignment w xs ys))
            :: events ∧
     Forall loop_event events) ∧
  heap w' = heap w ++ [presented w xs ys] ∧
  match r with
  | Return score => score = 0 ∨ score = 1
  | Raise e => e = EOFError ∨ (∃ l, e = InvalidRef l) ∨ (∃ k, e = KeyError k)
  end.
Proof.
  intros Hxs Hys. unfold MultiChoiceQuestion_ask.
  rewrite (MultiChoiceQuestion_ask_then_run _ self w xs ys Hxs Hys). simpl.
  rewrite (while_loop_on_tail _ _ _ (mret 0)).
  intros ((events & Htr & Hev) & Hheap & _ & Hr)%while_loop_on_effects.
  simpl in *. split_and!; [|done..].
  exists events. by rewrite Htr, <- app_assoc.
Qed.

Lemma format_items (keys values : list string) :
  (λ '(key, value), format_option key value) <$> zip keys values =
  zip_with format_option keys values.
Proof.
  revert values. induction keys as [|k keys IH]; intros [|v values]; simpl; [done..|].
  by rewrite IH.
Qed.

(** C6: with at most 26 options in all, [ask] presents every one of them
    once: the options are the shuffled concatenation of the two lists, option
    number [i] gets the [i]-th letter from ["a"], all letters differ, and the
    text printed first lists them in that order, one ["<letter>) <option>"]
    per line below the question. *)
Theorem MultiChoiceQuestion_ask_presents (self : MultiChoiceQuestion) w xs ys :
  heap w !! answers self = Some xs →
  heap w !! wrong_answers self = Some ys →
  (length xs + length ys ≤ 26)%nat →
  presented w xs ys ≡ₚ xs ++ ys ∧
  length (dict_items (option_assignment w xs ys)) = (length xs + length ys)%nat ∧
  dict_keys (option_assignment w xs ys) = letter <$> seq 0 (length xs + length ys) ∧
  NoDup (dict_keys (option_assignment w xs ys)) ∧
  dict_values (option_assignment w xs ys) = presented w xs ys ∧
  ∃ events,
    trace (MultiChoiceQuestion_ask self w).2 =
      trace w
      ++ Print (question self +:+ newline
                +:+ String.concat newline
                      (zip_with format_option
                         (letter <$> seq 0 (length xs + length ys))
                         (presented w xs ys)))
           :: events.
Proof.
  intros Hxs Hys Hle.
  assert (presented w xs ys ≡ₚ xs ++ ys) as Hperm by apply shuffle_list_perm.
  assert (length (presented w xs ys) = (length xs + length ys)%nat) as Hlen.
  { by rewrite Hperm, length_app. }
  pose proof (assign_letters_keys (presented w xs ys)) as Hkeys.
  pose proof (assign_letters_values (presented w xs ys)) as Hvalues.
  pose proof (assign_letters_items (presented w xs ys)) as Hitems.
  rewrite Hlen in Hkeys, Hvalues, Hitems.
  fold (option_assignment w xs ys) in Hkeys, Hvalues, Hitems.
  split_and!; [done| |by auto| |by auto|].
  - rewrite Hitems, length_zip, length_fmap, length_seq by done. lia.
  - rewrite Hkeys by done. by apply letters_NoDup.
  - destruct (MultiChoiceQuestion_ask self w) as [r w'] eqn:Hask.
    apply (MultiChoiceQuestion_ask_effects self w xs ys) in Hask
      as ((events & Htr & _) & _); [|done..].
    exists events. simpl. rewrite Htr. unfold full_question_text.
    by rewrite Hitems, format_items.
Qed.

(** C9: with both lists empty no line can be a letter or an option, so
    [ask] never returns a score: every line of input is consumed and answered
    with the re-prompt, and the run only ends, with [EOFError], when the
    input does. *)
Theorem MultiChoiceQuestion_ask_no_options (self : MultiChoiceQuestion) w :
  heap w !! answers self = Some [] →
  heap w !! wrong_answers self = Some [] →
  option_assignment w [] [] = [] ∧
  (∀ line, is_invalid (option_assignment w [] []) line) ∧
  (∀ score w', MultiChoiceQuestion_ask self w ≠ (Return score, w')) ∧
  MultiChoiceQuestion_ask self w =
    (Raise EOFError,
     World []
       (trace w ++ Print (full_question_text (question self) [])
                     :: (stdin w ≫= rejected) ++ [Prompt "Your answer: "])
       (heap w ++ [[]]) (shuffle_list (rng w) []).2).
Proof.
  intros Hxs Hys.
  assert (presented w [] [] = []) as Hnil.
  { apply Permutation_nil_r, shuffle_list_perm. }
  assert (option_assignment w [] [] = []) as Hol.
  { unfold option_assignment. by rewrite Hnil. }
  assert (∀ line, is_invalid (option_assignment w [] []) line) as Hinv.
  { intros line. rewrite Hol. split; by intros ?%elem_of_nil. }
  split; [done|]. split; [done|].
  cut (MultiChoiceQuestion_ask self w =
         (Raise EOFError,
          World []
            (trace w ++ Print (full_question_text (question self) [])
                          :: (stdin w ≫= rejected) ++ [Prompt "Your answer: "])
            (heap w ++ [[]]) (shuffle_list (rng w) []).2)).
  { intros Hrun. split; [|done]. intros score w'. by rewrite Hrun. }
  unfold MultiChoiceQuestion_ask.
  rewrite (MultiChoiceQuestion_ask_then_run _ self w [] [] Hxs Hys). cbv zeta.
  fold (presented w [] []). fold (option_assignment w [] []).
  rewrite Hol, Hnil.
  rewrite <- (app_nil_r (stdin w)) at 1.
  rewrite while_loop_on_rejected.
  - simpl. unfold emit; simpl. by rewrite <- !app_assoc.
  - apply Forall_forall. intros line _. rewrite <- Hol. apply Hinv.
  - simpl. by rewrite app_nil_r.
Qed.

End multi_choice_presentation.

Lemma mentions_middle c a b : mentions c (a +:+ String c b) = true.
Proof.
  induction a as [|c' a IH]; simpl.
  - by rewrite bool_decide_eq_true_2.
  - rewrite IH. apply orb_true_r.
Qed.

Lemma full_question_text_newline text option_list :
  mentions "010" (full_question_text text option_list) = true.
Proof. unfold full_question_text, newline. simpl. apply mentions_middle. Qed.

Section frame.
Context `{Runtime}.

Lemma Question_ask_frame (self : Question) w r w' :
  Question_ask self w = (r, w') →
  heap w' = heap w ∧ rng w' = rng w ∧
  match r with
  | Return score => score = 0 ∨ score = 1
  | Raise e => e = EOFError ∨ ∃ l, e = InvalidRef l
  end.
Proof.
  unfold Question_ask, input. run_step.
  repeat (match goal with
          | |- context [if ?b then _ else _] => destruct b
          | |- context [match ?o with Some _ => _ | None => _ end] => destruct o
          | |- context [match ?l with [] => _ | _ :: _ => _ end] => destruct l
          end; simpl);
    intros [= <- <-]; simpl; eauto.
Qed.

(** [ask] on an object whose list references do not resolve stops before
    doing anything. *)
Lemma MultiChoiceQuestion_ask_then_invalid tail (self : MultiChoiceQuestion) w :
  heap w !! answers self = None ∨ heap w !! wrong_answers self = None →
  MultiChoiceQuestion_ask_then tail self w =
    (Raise (InvalidRef (if heap w !! answers self is Some _
                        then wrong_answers self else answers self)), w).
Proof.
  unfold MultiChoiceQuestion_ask_then. run_step.
  destruct (heap w !! answers self) eqn:Hxs; simpl; [|done].
  by intros [?| ->].
Qed.

Lemma lists_resolve_or_not (self : MultiChoiceQuestion) w :
  (∃ xs ys, heap w !! answers self = Some xs ∧ heap w !! wrong_answers self = Some ys)
  ∨ (heap w !! answers self = None ∨ heap w !! wrong_answers self = None).
Proof.
  destruct (heap w !! answers self), (heap w !! wrong_answers self); eauto.
Qed.

(** Whatever [ask] is called on, the list objects that existed before the
    call exist after it with the same contents, and a returned score is 0
    or 1. *)
Lemma ask_frame (q : question_object) w r w' :
  ask q w = (r, w') →
  heap w `prefix_of` heap w' ∧
  match r with
  | Return score => score = 0 ∨ score = 1
  | Raise e => e = EOFError ∨ (∃ l, e = InvalidRef l) ∨ (∃ k, e = KeyError k)
  end.
Proof.
  destruct q as [self|self]; simpl.
  - intros (-> & _ & Hr)%Question_ask_frame. split; [done|].
    destruct r; [done|]. destruct Hr; auto.
  - destruct (lists_resolve_or_not self w) as [(xs & ys & Hxs & Hys)|Hbad].
    + intros (_ & -> & Hr)%(MultiChoiceQuestion_ask_effects self w xs ys);
        [|done..].
      split; [by apply prefix_app_r|done].
    + unfold MultiChoiceQuestion_ask.
      rewrite (MultiChoiceQuestion_ask_then_invalid after_loop self w Hbad).
      intros [= <- <-]. split; [done|]. eauto.
Qed.

(** C10: the two statements after the loop are never run.  Replacing them
    by any other statements gives the same [ask]; an iteration that ends
    without returning leaves [valid_input] false; and nothing [ask] writes
    is the message printed after the loop. *)
Theorem statements_after_loop_unreachable (self : MultiChoiceQuestion) w :
  (∀ tail, MultiChoiceQuestion_ask_then tail self w
           = MultiChoiceQuestion_ask self w) ∧
  (∀ option_list line w0 valid_input' w1,
     loop_body self option_list false line w0
       = (Return (EndOfBody valid_input'), w1) →
     valid_input' = false) ∧
  (∀ events,
     trace (MultiChoiceQuestion_ask self w).2 = trace w ++ events →
     Print "How is this method still running?" ∉ events).
Proof.
  split_and!.
  - intros tail. unfold MultiChoiceQuestion_ask.
    destruct (lists_resolve_or_not self w) as [(xs & ys & Hxs & Hys)|Hbad].
    + rewrite !(MultiChoiceQuestion_ask_then_run _ self w xs ys Hxs Hys).
      apply while_loop_on_tail.
    + by rewrite !MultiChoiceQuestion_ask_then_invalid.
  - intros option_list line w0 valid_input' w1. apply loop_body_end.
  - intros events Htr.
    destruct (MultiChoiceQuestion_ask self w) as [r w'] eqn:Hask. simpl in Htr.
    destruct (lists_resolve_or_not self w) as [(xs & ys & Hxs & Hys)|Hbad].
    + apply (MultiChoiceQuestion_ask_effects self w xs ys) in Hask
        as ((evs & Htr' & Hevs) & _); [|done..].
      rewrite Htr' in Htr. apply app_inv_head in Htr as <-.
      intros [Heq|Hin]%elem_of_cons.
      * injection Heq as Heq.
        pose proof (full_question_text_newline (question self)
                      (option_assignment w xs ys)) as Hnl.
        rewrite <- Heq in Hnl. done.
      * rewrite Forall_forall in Hevs. apply Hevs in Hin. simpl in Hin.
        repeat (apply elem_of_cons in Hin as [?|Hin]; [done|]).
        by apply elem_of_nil in Hin.
    + unfold MultiChoiceQuestion_ask in Hask.
      rewrite MultiChoiceQuestion_ask_then_invalid in Hask by done.
      injection Hask as _ <-.
      rewrite <- (app_nil_r (trace w)) in Htr at 1.
      apply app_inv_head in Htr as <-. by intros ?%elem_of_nil.
Qed.

(** C8: [ask] changes no stored answer list.  Every list object keeps its
    contents across the call, so the lists the fields refer to are what they
    were; [Question.ask] leaves the heap as it is, and
    [MultiChoiceQuestion.ask] adds one object to it, the shuffled combined
    list.  (The fields themselves are never assigned to: [ask] only reads
    [self].) *)
Theorem ask_leaves_fields_unchanged (q : question_object) w :
  (∀ l xs, heap w !! l = Some xs → heap (ask q w).2 !! l = Some xs) ∧
  (∀ self : Question, q = FreeText self → heap (ask q w).2 = heap w) ∧
  (∀ (self : MultiChoiceQuestion) xs ys,
     q = MultiChoice self →
     heap w !! answers self = Some xs →
     heap w !! wrong_answers self = Some ys →
     heap (ask q w).2 = heap w ++ [presented w xs ys] ∧
     heap (ask q w).2 !! answers self = Some xs ∧
     heap (ask q w).2 !! wrong_answers self = Some ys).
Proof.
  destruct (ask q w) as [r w'] eqn:Hask. simpl. split_and!.
  - intros l xs Hl. apply ask_frame in Hask as [[k ->] _].
    by apply lookup_app_l_Some.
  - intros self ->. simpl in Hask. by apply Question_ask_frame in Hask as [-> _].
  - intros self xs ys -> Hxs Hys. simpl in Hask.
    destruct (MultiChoiceQuestion_ask_effects self w xs ys r w' Hxs Hys Hask)
      as (_ & Hheap & _).
    rewrite Hheap. split_and!; [done|by apply lookup_app_l_Some..].
Qed.

End frame.

(** ** run_quiz *)

Section quiz.
Context `{Runtime}.

(** The indexed loop of [run_quiz], started at the index that follows the
    questions [asked], asks the remaining ones in order. *)
Lemma for_each_index_in_order question_separator first_question_num remaining :
  ∀ asked score w,
    for_each_index (asked ++ remaining) question_separator first_question_num
      (seq (length asked) (length remaining)) score w =
    (results ← ask_in_order question_separator first_question_num
                            (length asked) remaining;
     mret (score + total results)) w.
Proof.
  induction remaining as [|q remaining IH]; intros asked score w.
  - simpl. run_step. by rewrite Z.add_0_r.
  - simpl. unfold heading. run_step.
    rewrite list_lookup_middle by done. simpl.
    destruct (ask q _) as [[result|e] w1]; [|done].
    specialize (IH (asked ++ [q]) (score + result) w1).
    rewrite <- app_assoc, length_app, Nat.add_1_r in IH. simpl in IH.
    rewrite IH. run_step.
    destruct (ask_in_order _ _ _ _ _) as [[results|e] w2]; [|done].
    simpl. by rewrite Z.add_assoc.
Qed.

Lemma ask_in_order_results question_separator first_question_num qs :
  ∀ i w r w',
    ask_in_order question_separator first_question_num i qs w = (r, w') →
    match r with
    | Return results =>
        Forall (λ result, result = 0 ∨ result = 1) results ∧
        length results = length qs
    | Raise e => e = EOFError ∨ (∃ l, e = InvalidRef l) ∨ (∃ k, e = KeyError k)
    end.
Proof.
  induction qs as [|q qs IH]; intros i w r w'; simpl.
  - run_step. by intros [= <- <-].
  - unfold heading. run_step.
    destruct (ask q _) as [[result|e] w1] eqn:Hask;
      apply ask_frame in Hask as [_ Hresult]; [|by intros [= <- <-]].
    destruct (ask_in_order _ _ _ _ _) as [[results'|e] w2] eqn:Hrest;
      apply IH in Hrest; simpl; intros [= <- <-]; [|done].
    destruct Hrest as [Hall Hlen].
    split; [by apply Forall_cons_2|]. simpl. by rewrite Hlen.
Qed.

Lemma total_bounds results :
  Forall (λ result, result = 0 ∨ result = 1) results →
  0 ≤ total results ≤ len results.
Proof.
  unfold len. induction 1 as [|r rs Hr _ IH]; simpl; [done|].
  destruct Hr; lia.
Qed.

(** [run_quiz] on a list with a question in it. *)
Lemma run_quiz_run questions score_per_question question_separator
    first_question_num w :
  questions ≠ [] →
  run_quiz questions score_per_question question_separator first_question_num w =
    (results ← ask_in_order question_separator first_question_num 0 questions;
     print question_separator;;
     print ("Your score: " +:+ str_of_int (total results));;
     print question_separator;;
     mret (total results)) w.
Proof.
  intros Hne. unfold run_quiz.
  destruct questions as [|q qs]; [done|].
  replace (len (q :: qs) =? 0) with false
    by (symmetry; apply Z.eqb_neq; unfold len; simpl; lia).
  pose proof (for_each_index_in_order question_separator first_question_num
                (q :: qs) [] 0 w) as Hloop.
  rewrite app_nil_l in Hloop. change (length []) with 0%nat in Hloop.
  unfold mbind, M_bind in *. rewrite Hloop.
  by destruct (ask_in_order _ _ _ _ _) as [[results|e] w1].
Qed.

(** C4: with no questions [run_quiz] raises at once; the world, and so the
    trace and the pending input, is as it was.  It is the only way
    [run_quiz] raises this error: a run that ends with it has read and
    written nothing. *)
Theorem run_quiz_empty score_per_question question_separator first_question_num w :
  run_quiz [] score_per_question question_separator first_question_num w =
    (Raise (ValueError "A quiz needs to have questions!"), w) ∧
  (∀ questions msg w',
     run_quiz questions score_per_question question_separator
              first_question_num w = (Raise (ValueError msg), w') →
     questions = [] ∧ w' = w).
Proof.
  split; [done|]. intros questions msg w'.
  destruct (decide (questions = [])) as [->|Hne].
  - by intros [= _ <-].
  - rewrite run_quiz_run by done. run_step.
    destruct (ask_in_order _ _ _ _ _) as [[results|e] w1] eqn:Hrun; [done|].
    apply ask_in_order_results in Hrun. intros [= -> _].
    by destruct Hrun as [|[[]|[]]].
Qed.

(** C5: on a non-empty list, [run_quiz] asks the questions in list order,
    the one at index [i] under the heading [i + first_question_num]; its
    result is the sum of what the calls to [ask] returned, each 0 or 1, and
    that sum is the score it prints.  [score_per_question] plays no part. *)
Theorem run_quiz_in_order questions score_per_question score_per_question'
    question_separator first_question_num w :
  questions ≠ [] →
  run_quiz questions score_per_question question_separator first_question_num w =
    (results ← ask_in_order question_separator first_question_num 0 questions;
     print question_separator;;
     print ("Your score: " +:+ str_of_int (total results));;
     print question_separator;;
     mret (total results)) w ∧
  run_quiz questions score_per_question question_separator first_question_num w =
    run_quiz questions score_per_question' question_separator first_question_num w ∧
  (∀ results w',
     ask_in_order question_separator first_question_num 0 questions w
       = (Return results, w') →
     Forall (λ result, result = 0 ∨ result = 1) results ∧
     length results = length questions ∧
     0 ≤ total results ≤ len questions).
Proof.
  intros Hne. split_and!.
  - by apply run_quiz_run.
  - done.
  - intros results w' Hrun.
    apply ask_in_order_results in Hrun as [Hall Hlen].
    split; [done|]. split; [done|].
    unfold len. rewrite <- Hlen. by apply total_bounds.
Qed.

End quiz.

(** * The program on concrete quizzes *)

Section examples.
#[local] Existing Instance test_runtime.

Ltac by_computation :=
  unfold is_invalid, is_letter_key, is_option_text;
  repeat match goal with
         | |- Forall _ (_ :: _) => apply Forall_cons_2
         | |- Forall _ [] => apply Forall_nil_2
         | |- _ ∧ _ => split
         end;
  try (apply (bool_decide_unpack _); vm_compute; exact I).

Example free_text_any_case :
  Question_ask capital (quiz_world ["PARIS"] 0) =
    (Return 1,
     World [] [Print "Capital of France?"; Prompt "Your answer: "; Read "PARIS";
               Print "Correct!"]
           [["Paris"]; ["Apple"]; ["Banana"]] 0).
Proof. reflexivity. Qed.

Example free_text_not_trimmed :
  (Question_ask capital (quiz_world [" Paris"] 0)).1 = Return 0.
Proof. reflexivity. Qed.

Example free_text_end_of_input :
  Question_ask capital (quiz_world [] 0) =
    (Raise EOFError,
     World [] [Print "Capital of France?"; Prompt "Your answer: "]
           [["Paris"]; ["Apple"]; ["Banana"]] 0).
Proof. reflexivity. Qed.

Example multi_choice_by_letter :
  MultiChoiceQuestion_ask fruit (quiz_world ["x"; "B"; "more"] 1) =
    (Return 1,
     World ["more"]
           [Print ("Pick A" +:+ newline +:+ "a) Banana" +:+ newline +:+ "b) Apple");
            Prompt "Your answer: "; Read "x";
            Print "Please enter one of the options!";
            Prompt "Your answer: "; Read "B"; Print "Correct!"]
           [["Paris"]; ["Apple"]; ["Banana"]; ["Banana"; "Apple"]] 2).
Proof. reflexivity. Qed.

Example multi_choice_by_text :
  (MultiChoiceQuestion_ask fruit (quiz_world ["apple"] 0)).1 = Return 1 ∧
  (MultiChoiceQuestion_ask fruit (quiz_world ["apple"] 1)).1 = Return 1 ∧
  (MultiChoiceQuestion_ask fruit (quiz_world ["BANANA"] 0)).1 = Return 0.
Proof. by vm_compute. Qed.

(** With the options ["b"] (right) and ["a"] (wrong) shown as [a) b] and
    [b) a], typing [a] picks the option under the letter a, which is the
    right one; as an option text, [a] would have been the wrong one. *)
Example single_letter_options :
  option_assignment (letters_world ["a"]) ["b"] ["a"] = [("a", "b"); ("b", "a")] ∧
  (MultiChoiceQuestion_ask either (letters_world ["a"])).1 = Return 1 ∧
  (MultiChoiceQuestion_ask either (letters_world ["b"])).1 = Return 0.
Proof. by vm_compute. Qed.

Example quiz_of_two :
  run_quiz [FreeText capital; MultiChoice fruit] 5 "-----------" 1
           (quiz_world ["paris"; "b"] 0) =
    (Return 1,
     World []
           [Print "-----------"; Print "Question 1"; Print "-----------";
            Print "Capital of France?"; Prompt "Your answer: "; Read "paris";
            Print "Correct!";
            Print "-----------"; Print "Question 2"; Print "-----------";
            Print ("Pick A" +:+ newline +:+ "a) Apple" +:+ newline +:+ "b) Banana");
            Prompt "Your answer: "; Read "b"; Print "Incorrect!";
            Print "-----------"; Print "Your score: 1"; Print "-----------"]
           [["Paris"]; ["Apple"]; ["Banana"]; ["Apple"; "Banana"]] 1).
Proof. reflexivity. Qed.

Lemma Question_ask_case_insensitive_witness :
  ∃ score w',
    Question_ask capital (quiz_world ["PARIS"] 0) = (Return score, w') ∧
    (score = 1 ↔ lower "PARIS" ∈ lower <$> ["Paris"]) ∧
    (score = 1 ↔ case_insensitive_member "PARIS" ["Paris"]) ∧
    (score = 0 ↔ ¬ case_insensitive_member "PARIS" ["Paris"]) ∧
    (["Paris"] = [] → score = 0).
Proof.
  apply (Question_ask_case_insensitive capital (quiz_world ["PARIS"] 0)
           "PARIS" [] ["Paris"]); reflexivity.
Defined.

Lemma MultiChoiceQuestion_init_limit_witness :
  ((∃ msg, MultiChoiceQuestion_init "Pick A" 1%nat 2%nat (quiz_world [] 0)
           = (Raise (ValueError msg), quiz_world [] 0))
     ↔ len ["Apple"] + len ["Banana"] > 26) ∧
  ((∃ self, MultiChoiceQuestion_init "Pick A" 1%nat 2%nat (quiz_world [] 0)
            = (Return self, quiz_world [] 0) ∧
            question self = "Pick A" ∧ answers self = 1%nat ∧
            wrong_answers self = 2%nat)
     ↔ len ["Apple"] + len ["Banana"] ≤ 26).
Proof.
  apply (MultiChoiceQuestion_init_limit "Pick A" 1%nat 2%nat (quiz_world [] 0)
           ["Apple"] ["Banana"]); reflexivity.
Defined.

Example too_many :
  MultiChoiceQuestion_init "Pick" 0%nat 1%nat
      (World [] [] [replicate 20 "x"; replicate 7 "y"] 0) =
    (Raise (ValueError "Combined length of correct and incorrect answer lists must be 26 or less. Total options received: 27"),
     World [] [] [replicate 20 "x"; replicate 7 "y"] 0).
Proof. reflexivity. Qed.

Lemma MultiChoiceQuestion_ask_score_witness :
  ∃ score w',
    MultiChoiceQuestion_ask fruit (quiz_world ["x"; "B"; "more"] 1)
      = (Return score, w') ∧
    stdin w' = ["more"] ∧
    (score = 0 ∨ score = 1) ∧
    (is_letter_key
       (option_assignment (quiz_world ["x"; "B"; "more"] 1) ["Apple"] ["Banana"]) "B" →
     ∃ selected,
       dict_lookup
         (option_assignment (quiz_world ["x"; "B"; "more"] 1) ["Apple"] ["Banana"])
         (lower "B") = Some selected ∧
       (score = 1 ↔ selected ∈ ["Apple"])) ∧
    (¬ is_letter_key
         (option_assignment (quiz_world ["x"; "B"; "more"] 1) ["Apple"] ["Banana"]) "B" →
     ∀ selected,
       selected ∈ dict_values
         (option_assignment (quiz_world ["x"; "B"; "more"] 1) ["Apple"] ["Banana"]) →
       lower selected = lower "B" →
       (score = 1 ↔ case_insensitive_member selected ["Apple"])) ∧
    ((∀ y, y ∈ ["Banana"] → y ∉ ["Apple"] →
           ¬ case_insensitive_member y ["Apple"]) →
     is_letter_key
       (option_assignment (quiz_world ["x"; "B"; "more"] 1) ["Apple"] ["Banana"]) "B" →
     ∃ selected,
       dict_lookup
         (option_assignment (quiz_world ["x"; "B"; "more"] 1) ["Apple"] ["Banana"])
         (lower "B") = Some selected ∧
       (score = 1 ↔ case_insensitive_member selected ["Apple"])).
Proof.
  apply (MultiChoiceQuestion_ask_score fruit (quiz_world ["x"; "B"; "more"] 1)
           ["Apple"] ["Banana"] ["x"] "B" ["more"]);
    [reflexivity|reflexivity|reflexivity|by_computation|left; by_computation].
Defined.

(** The claim of C1 fails where a wrong answer is a right answer in other
    case.  With ["Apple"] right and ["apple"] wrong, shown as [a) Apple] and
    [b) apple], the line [b] selects ["apple"], which is a case-insensitive
    member of the right answers; [ask] returns 0. *)
Lemma letter_of_case_variant_scores_0 :
  dict_lookup (option_assignment (apples_world ["b"]) ["Apple"] ["apple"])
              (lower "b") = Some "apple" ∧
  case_insensitive_member "apple" ["Apple"] ∧
  MultiChoiceQuestion_ask either (apples_world ["b"]) =
    (Return 0,
     World []
           [Print ("Which one?" +:+ newline +:+ "a) Apple" +:+ newline +:+ "b) apple");
            Prompt "Your answer: "; Read "b"; Print "Incorrect!"]
           [["Apple"]; ["apple"]; ["Apple"; "apple"]] 1).
Proof.
  split_and!; [reflexivity| |reflexivity].
  exists "Apple". split; [by left|reflexivity].
Qed.

(** The same option typed out is scored 1. *)
Example text_of_case_variant_scores_1 :
  (MultiChoiceQuestion_ask either (apples_world ["apple"])).1 = Return 1.
Proof. reflexivity. Qed.

Lemma letter_key_takes_priority_witness :
  ∃ selected w',
    dict_lookup (option_assignment (letters_world ["a"]) ["b"] ["a"]) (lower "a")
      = Some selected ∧
    MultiChoiceQuestion_ask either (letters_world ["a"]) =
      (Return (if bool_decide (selected ∈ ["b"]) then 1 else 0), w').
Proof.
  apply (letter_key_takes_priority either (letters_world ["a"]) ["b"] ["a"]
           [] "a" []);
    [reflexivity|reflexivity|reflexivity|by_computation..].
Defined.

Lemma MultiChoiceQuestion_ask_presents_witness :
  presented (quiz_world ["b"] 1) ["Apple"] ["Banana"] ≡ₚ ["Apple"] ++ ["Banana"] ∧
  length (dict_items (option_assignment (quiz_world ["b"] 1) ["Apple"] ["Banana"]))
    = (length ["Apple"] + length ["Banana"])%nat ∧
  dict_keys (option_assignment (quiz_world ["b"] 1) ["Apple"] ["Banana"])
    = letter <$> seq 0 (length ["Apple"] + length ["Banana"]) ∧
  NoDup (dict_keys (option_assignment (quiz_world ["b"] 1) ["Apple"] ["Banana"])) ∧
  dict_values (option_assignment (quiz_world ["b"] 1) ["Apple"] ["Banana"])
    = presented (quiz_world ["b"] 1) ["Apple"] ["Banana"] ∧
  ∃ events,
    trace (MultiChoiceQuestion_ask fruit (quiz_world ["b"] 1)).2 =
      trace (quiz_world ["b"] 1)
      ++ Print (question fruit +:+ newline
                +:+ String.concat newline
                      (zip_with format_option
                         (letter <$> seq 0 (length ["Apple"] + length ["Banana"]))
                         (presented (quiz_world ["b"] 1) ["Apple"] ["Banana"])))
           :: events.
Proof.
  apply (MultiChoiceQuestion_ask_presents fruit (quiz_world ["b"] 1)
           ["Apple"] ["Banana"]); [reflexivity|reflexivity|simpl; lia].
Defined.

Lemma MultiChoiceQuestion_ask_no_options_witness :
  option_assignment (empty_world ["a"; "yes"]) [] [] = [] ∧
  (∀ line, is_invalid (option_assignment (empty_world ["a"; "yes"]) [] []) line) ∧
  (∀ score w',
     MultiChoiceQuestion_ask either (empty_world ["a"; "yes"]) ≠ (Return score, w')) ∧
  MultiChoiceQuestion_ask either (empty_world ["a"; "yes"]) =
    (Raise EOFError,
     World []
       (trace (empty_world ["a"; "yes"])
        ++ Print (full_question_text (question either) [])
             :: (stdin (empty_world ["a"; "yes"]) ≫= rejected)
        ++ [Prompt "Your answer: "])
       (heap (empty_world ["a"; "yes"]) ++ [[]])
       (shuffle_list (rng (empty_world ["a"; "yes"])) []).2).
Proof.
  apply (MultiChoiceQuestion_ask_no_options either (empty_world ["a"; "yes"]));
    reflexivity.
Defined.

Example no_options_run :
  MultiChoiceQuestion_ask either (empty_world ["a"; "yes"]) =
    (Raise EOFError,
     World []
           [Print ("Which one?" +:+ newline);
            Prompt "Your answer: "; Read "a";
            Print "Please enter one of the options!";
            Prompt "Your answer: "; Read "yes";
            Print "Please enter one of the options!";
            Prompt "Your answer: "]
           [[]; []; []] 1).
Proof. reflexivity. Qed.

Lemma run_quiz_in_order_witness :
  run_quiz [FreeText capital; MultiChoice fruit] 5 "-----------" 1
           (quiz_world ["paris"; "b"] 0) =
    (results ← ask_in_order "-----------" 1 0 [FreeText capital; MultiChoice fruit];
     print "-----------";;
     print ("Your score: " +:+ str_of_int (total results));;
     print "-----------";;
     mret (total results)) (quiz_world ["paris"; "b"] 0) ∧
  run_quiz [FreeText capital; MultiChoice fruit] 5 "-----------" 1
           (quiz_world ["paris"; "b"] 0) =
    run_quiz [FreeText capital; MultiChoice fruit] 1 "-----------" 1
             (quiz_world ["paris"; "b"] 0) ∧
  (∀ results w',
     ask_in_order "-----------" 1 0 [FreeText capital; MultiChoice fruit]
                  (quiz_world ["paris"; "b"] 0) = (Return results, w') →
     Forall (λ result, result = 0 ∨ result = 1) results ∧
     length results = length [FreeText capital; MultiChoice fruit] ∧
     0 ≤ total results ≤ len [FreeText capital; MultiChoice fruit]).
Proof.
  apply (run_quiz_in_order [FreeText capital; MultiChoice fruit] 5 1
           "-----------" 1 (quiz_world ["paris"; "b"] 0)).
  discriminate.
Defined.

End examples.

(** * Further properties of the program *)

(** ** What [ask] shows and when it returns *)

Section dialogue.
Context `{Runtime}.

Lemma loop_body_feedback (self : MultiChoiceQuestion) option_list valid_input
    line w score w' :
  loop_body self option_list valid_input line w = (Return (Returned score), w') →
  w' = emit (Print (feedback score)) w.
Proof.
  unfold loop_body. run_step.
  repeat (match goal with
          | |- context [if ?b then _ else _] => destruct b
          | |- context [match ?o with Some _ => _ | None => _ end] => destruct o
          end; simpl);
    by intros [= <- <-].
Qed.

Lemma while_loop_on_feedback (self : MultiChoiceQuestion) option_list pending :
  ∀ w score w',
    while_loop_on self option_list (mret 0) false pending w = (Return score, w') →
    ∃ before, trace w' = before ++ [Print (feedback score)].
Proof.
  induction pending as [|line rest IH]; intros w score w'; simpl; [done|].
  destruct (loop_body _ _ _ _ _) as [[[score'|valid_input']|e] w2] eqn:Hbody;
    [| |done].
  - apply loop_body_feedback in Hbody as ->. intros [= <- <-]. simpl. eauto.
  - apply loop_body_end in Hbody as ->. apply IH.
Qed.

(** X1: the message printed last is the one that goes with the returned score. *)
Theorem ask_feedback_matches_score (q : question_object) w score w' :
  ask q w = (Return score, w') →
  (score = 0 ∨ score = 1) ∧
  ∃ before, trace w' = before ++ [Print (feedback score)].
Proof.
  intros Hask. split; [by apply ask_frame in Hask as [_ ?]|].
  destruct q as [self|self]; simpl in Hask.
  - revert Hask. unfold Question_ask, input. run_step.
    repeat (match goal with
            | |- context [if ?b then _ else _] => destruct b
            | |- context [match ?o with Some _ => _ | None => _ end] => destruct o
            | |- context [match ?l with [] => _ | _ :: _ => _ end] => destruct l
            end; simpl);
      intros [= <- <-]; simpl; eauto.
  - destruct (lists_resolve_or_not self w) as [(xs & ys & Hxs & Hys)|Hbad].
    + unfold MultiChoiceQuestion_ask in Hask.
      rewrite (MultiChoiceQuestion_ask_then_run _ self w xs ys Hxs Hys) in Hask.
      simpl in Hask. rewrite (while_loop_on_tail _ _ _ (mret 0)) in Hask.
      by apply while_loop_on_feedback in Hask.
    + unfold MultiChoiceQuestion_ask in Hask.
      by rewrite MultiChoiceQuestion_ask_then_invalid in Hask.
Qed.

Lemma accepts_or_invalid option_list line :
  accepts option_list line ∨ is_invalid option_list line.
Proof.
  unfold accepts, is_invalid, is_letter_key, is_option_text.
  destruct (decide (lower line ∈ dict_keys option_list)); [by auto|].
  destruct (decide (lower line ∈ lower <$> dict_values option_list)); auto.
Qed.

Lemma invalid_not_accepted option_list line :
  is_invalid option_list line ↔ ¬ accepts option_list line.
Proof. unfold accepts, is_invalid. tauto. Qed.

(** A list of lines is rejected throughout, or splits at its first accepted
    line. *)
Lemma split_at_first_accepted option_list lines :
  Forall (is_invalid option_list) lines ∨
  ∃ skipped line rest,
    lines = skipped ++ line :: rest ∧
    Forall (is_invalid option_list) skipped ∧ accepts option_list line.
Proof.
  induction lines as [|line lines IH]; [by left|].
  destruct (accepts_or_invalid option_list line) as [Hok|Hbad].
  - right. by exists [], line, lines.
  - destruct IH as [Hall|(skipped & line' & rest & -> & Hsk & Hok)].
    + left. by apply Forall_cons_2.
    + right. exists (line :: skipped), line', rest.
      split_and!; [done|by apply Forall_cons_2|done].
Qed.

(** [ask] on input that holds no accepted line. *)
Lemma MultiChoiceQuestion_ask_exhausted (self : MultiChoiceQuestion) w xs ys :
  heap w !! answers self = Some xs →
  heap w !! wrong_answers self = Some ys →
  Forall (is_invalid (option_assignment w xs ys)) (stdin w) →
  MultiChoiceQuestion_ask self w =
    (Raise EOFError,
     World []
       (trace w
        ++ Print (full_question_text (question self) (option_assignment w xs ys))
             :: (stdin w ≫= rejected) ++ [Prompt "Your answer: "])
       (heap w ++ [presented w xs ys])
       (shuffle_list (rng w) (xs ++ ys)).2).
Proof.
  intros Hxs Hys Hall. unfold MultiChoiceQuestion_ask.
  rewrite (MultiChoiceQuestion_ask_then_run _ self w xs ys Hxs Hys). cbv zeta.
  fold (presented w xs ys). fold (option_assignment w xs ys).
  rewrite <- (app_nil_r (stdin w)) at 1.
  rewrite while_loop_on_rejected; [|done|simpl; by rewrite app_nil_r].
  simpl. unfold emit; simpl. by rewrite <- !app_assoc.
Qed.

(** X2: [MultiChoiceQuestion.ask] returns a score exactly when some pending line
    is a letter key or an option text; when none is, it ends with
    [EOFError], and only then. *)
Theorem MultiChoiceQuestion_ask_returns_iff (self : MultiChoiceQuestion) w xs ys :
  heap w !! answers self = Some xs →
  heap w !! wrong_answers self = Some ys →
  ((∃ score w', MultiChoiceQuestion_ask self w = (Return score, w'))
     ↔ Exists (accepts (option_assignment w xs ys)) (stdin w)) ∧
  ((∃ e w', MultiChoiceQuestion_ask self w = (Raise e, w'))
     ↔ Forall (is_invalid (option_assignment w xs ys)) (stdin w)) ∧
  (∀ e w', MultiChoiceQuestion_ask self w = (Raise e, w') → e = EOFError).
Proof.
  intros Hxs Hys.
  destruct (split_at_first_accepted (option_assignment w xs ys) (stdin w))
    as [Hall|(skipped & line & rest & Hin & Hsk & Hok)].
  - rewrite (MultiChoiceQuestion_ask_exhausted self w xs ys Hxs Hys Hall).
    split_and!.
    + split; [by intros (? & ? & [=])|].
      intros Hex. apply Exists_exists in Hex as (line & Hin & Hok).
      rewrite Forall_forall in Hall. by destruct (Hall line Hin) as [? ?], Hok.
    + split; [done|eauto].
    + by intros e w' [= <- _].
  - destruct (MultiChoiceQuestion_ask_answered self w xs ys skipped line rest)
      as (correct & -> & _); [done..|].
    split_and!.
    + split; [|eauto]. intros _. rewrite Hin. apply Exists_app. right.
      by apply Exists_cons_hd.
    + split; [by intros (? & ? & [=])|].
      rewrite Hin. intros Hall. apply Forall_app in Hall as [_ Hall].
      apply Forall_cons in Hall as [[? ?] _]. by destruct Hok.
    + by intros e w' [=].
Qed.

(** X3: the dialogue of [MultiChoiceQuestion.ask]: the question with its
    options, one re-prompt for each rejected line, then the accepted line and
    the message for its score.  The lines after the accepted one are left
    on standard input. *)
Theorem MultiChoiceQuestion_ask_dialogue (self : MultiChoiceQuestion) w xs ys
    skipped line rest :
  heap w !! answers self = Some xs →
  heap w !! wrong_answers self = Some ys →
  stdin w = skipped ++ line :: rest →
  Forall (is_invalid (option_assignment w xs ys)) skipped →
  accepts (option_assignment w xs ys) line →
  ∃ score,
    MultiChoiceQuestion_ask self w =
      (Return score,
       World rest
         (trace w
          ++ Print (full_question_text (question self) (option_assignment w xs ys))
               :: (skipped ≫= rejected)
          ++ [Prompt "Your answer: "; Read line; Print (feedback score)])
         (heap w ++ [presented w xs ys])
         (shuffle_list (rng w) (xs ++ ys)).2).
Proof.
  intros Hxs Hys Hin Hsk Hok.
  destruct (MultiChoiceQuestion_ask_answered self w xs ys skipped line rest)
    as (correct & -> & _); [done..|].
  exists (if correct then 1 else 0). by destruct correct.
Qed.

End dialogue.

(** ** The letters and the options under them *)

Lemma zip_keys {A B} (l : list A) (k : list B) :
  (zip l k).*1 = take (length k) l.
Proof.
  rewrite <- (zip_with_take_l _ l k).
  apply fst_zip. rewrite length_take. lia.
Qed.

Lemma zip_values {A B} (l : list A) (k : list B) :
  (zip l k).*2 = take (length l) k.
Proof.
  rewrite <- (zip_with_take_r _ l k).
  apply snd_zip. rewrite length_take. lia.
Qed.

Lemma dict_lookup_zip (ks vs : list string) :
  NoDup ks →
  ∀ i k v, ks !! i = Some k → vs !! i = Some v →
           dict_lookup (zip ks vs) k = Some v.
Proof.
  intros Hnd. revert vs.
  induction Hnd as [|k0 ks Hk0 Hnd IH]; intros vs i k v; [done|].
  destruct vs as [|v0 vs]; [by rewrite lookup_nil|].
  destruct i as [|i]; simpl.
  - intros [= ->] [= ->]. by rewrite bool_decide_eq_true_2.
  - intros Hk Hv. rewrite bool_decide_eq_false_2; [by eapply IH|].
    intros ->. apply Hk0. by eapply list_elem_of_lookup_2.
Qed.

Lemma assign_letters_all (all_options : list string) :
  dict_keys (assign_letters all_options)
    = letter <$> seq 0 (length all_options `min` 26) ∧
  dict_values (assign_letters all_options) = take 26 all_options.
Proof.
  rewrite assign_letters_zip. unfold dict_keys, dict_values.
  rewrite zip_keys, zip_values, length_fmap, length_seq.
  by rewrite <- fmap_take, take_seq.
Qed.

Lemma assign_letters_lookup (all_options : list string) i option :
  (i < 26)%nat →
  all_options !! i = Some option →
  dict_lookup (assign_letters all_options) (letter i) = Some option.
Proof.
  intros Hi Hopt. rewrite assign_letters_zip.
  apply (dict_lookup_zip _ _ (letters_NoDup 26 (le_n _)) i); [|done].
  by rewrite list_lookup_fmap, lookup_seq_lt.
Qed.

Section letters.
Context `{Runtime}.

Lemma presented_length w xs ys :
  length (presented w xs ys) = (length xs + length ys)%nat.
Proof.
  unfold presented. by rewrite shuffle_list_perm, length_app.
Qed.

(** X4: whatever the number of options, [ask] letters the first 26 of the
    shuffled list and no more: the keys are the first [min n 26] letters,
    the values the options at those positions, and the text printed first
    lists exactly these. *)
Theorem option_assignment_first_26 (self : MultiChoiceQuestion) w xs ys :
  heap w !! answers self = Some xs →
  heap w !! wrong_answers self = Some ys →
  dict_keys (option_assignment w xs ys)
    = letter <$> seq 0 ((length xs + length ys) `min` 26) ∧
  dict_values (option_assignment w xs ys) = take 26 (presented w xs ys) ∧
  NoDup (dict_keys (option_assignment w xs ys)) ∧
  (∀ msg w', MultiChoiceQuestion_ask self w ≠ (Raise (ValueError msg), w')) ∧
  ∃ events,
    trace (MultiChoiceQuestion_ask self w).2 =
      trace w
      ++ Print (question self +:+ newline
                +:+ String.concat newline
                      (zip_with format_option
                         (letter <$> seq 0 ((length xs + length ys) `min` 26))
                         (take 26 (presented w xs ys))))
           :: events.
Proof.
  intros Hxs Hys.
  destruct (assign_letters_all (presented w xs ys)) as [Hkeys Hvalues].
  rewrite presented_length in Hkeys.
  fold (option_assignment w xs ys) in Hkeys, Hvalues.
  destruct (MultiChoiceQuestion_ask self w) as [r w'] eqn:Hask.
  destruct (MultiChoiceQuestion_ask_effects self w xs ys r w' Hxs Hys Hask)
    as ((events & Htr & _) & _ & Hr).
  split_and!; [done|done| | |].
  - rewrite Hkeys. apply letters_NoDup. lia.
  - intros msg w'' [= -> _]. by destruct Hr as [|[[]|[]]].
  - exists events. simpl. rewrite Htr. unfold full_question_text.
    rewrite <- Hkeys, <- Hvalues, <- format_items.
    unfold dict_keys, dict_values, dict_items. by rewrite zip_fst_snd.
Qed.

Lemma is_letter_key_letters w xs ys line :
  is_letter_key (option_assignment w xs ys) line ↔
  ∃ i, (i < (length xs + length ys) `min` 26)%nat ∧ lower line = letter i.
Proof.
  unfold is_letter_key, option_assignment.
  rewrite (proj1 (assign_letters_all _)), presented_length, list_elem_of_fmap.
  split; intros (i & Hi & Heq).
  - apply elem_of_seq in Heq. exists i. split; [lia|done].
  - exists i. split; [done|]. apply elem_of_seq. lia.
Qed.

Lemma is_option_text_stored w xs ys line :
  (length xs + length ys ≤ 26)%nat →
  is_option_text (option_assignment w xs ys) line ↔
  lower line ∈ lower <$> (xs ++ ys).
Proof.
  intros Hle. unfold is_option_text, option_assignment.
  rewrite assign_letters_values by (by rewrite presented_length).
  unfold presented. by rewrite shuffle_list_perm.
Qed.

(** X5: with at most 26 options, which lines [ask] accepts does not depend on
    the shuffle: a line is a letter key when its lowercase is one of the
    first [n] letters, and an option text when its lowercase is that of a
    stored answer, right or wrong. *)
Theorem accepted_lines_whatever_the_shuffle w xs ys line :
  (length xs + length ys ≤ 26)%nat →
  (is_letter_key (option_assignment w xs ys) line ↔
     ∃ i, (i < length xs + length ys)%nat ∧ lower line = letter i) ∧
  (is_option_text (option_assignment w xs ys) line ↔
     lower line ∈ lower <$> (xs ++ ys)) ∧
  (is_invalid (option_assignment w xs ys) line ↔
     (∀ i, (i < length xs + length ys)%nat → lower line ≠ letter i) ∧
     lower line ∉ lower <$> (xs ++ ys)).
Proof.
  intros Hle.
  pose proof (is_letter_key_letters w xs ys line) as Hkey.
  rewrite Nat.min_l in Hkey by done.
  pose proof (is_option_text_stored w xs ys line Hle) as Htext.
  split_and!; [done..|].
  unfold is_invalid. rewrite Hkey, Htext. split.
  - intros [Hno Hnot]. split; [|done]. intros i Hi Heq. apply Hno. eauto.
  - intros [Hno Hnot]. split; [|done]. intros (i & Hi & Heq). by eapply Hno.
Qed.

(** X6: a typed option text that is not one of the letters in use is scored by
    the text alone, the same under every shuffle: 1 exactly when its
    lowercase is that of a right answer. *)
Theorem typed_option_scored_by_text (self : MultiChoiceQuestion) w xs ys line rest :
  heap w !! answers self = Some xs →
  heap w !! wrong_answers self = Some ys →
  (length xs + length ys ≤ 26)%nat →
  stdin w = line :: rest →
  (∀ i, (i < length xs + length ys)%nat → lower line ≠ letter i) →
  lower line ∈ lower <$> (xs ++ ys) →
  ∃ w',
    MultiChoiceQuestion_ask self w =
      (Return (if bool_decide (lower line ∈ lower <$> xs) then 1 else 0), w') ∧
    stdin w' = rest.
Proof.
  intros Hxs Hys Hle Hin Hno Htext.
  assert (¬ is_letter_key (option_assignment w xs ys) line) as Hnokey.
  { rewrite is_letter_key_letters, Nat.min_l by done.
    intros (i & Hi & Heq). by eapply Hno. }
  destruct (MultiChoiceQuestion_ask_answered self w xs ys [] line rest)
    as (correct & -> & _ & Hc); [done..| |].
  { right. by apply is_option_text_stored. }
  specialize (Hc Hnokey).
  destruct correct; eexists.
  - split; [rewrite bool_decide_eq_true_2 by (by apply Hc); reflexivity|done].
  - split; [rewrite bool_decide_eq_false_2; [reflexivity|]|done].
    intros Hx. by apply Hc in Hx.
Qed.

Lemma MultiChoiceQuestion_ask_letter (self : MultiChoiceQuestion) w xs ys
    i option line rest :
  heap w !! answers self = Some xs →
  heap w !! wrong_answers self = Some ys →
  stdin w = line :: rest →
  (i < 26)%nat →
  presented w xs ys !! i = Some option →
  lower line = letter i →
  ∃ w',
    MultiChoiceQuestion_ask self w =
      (Return (if bool_decide (option ∈ xs) then 1 else 0), w') ∧
    stdin w' = rest.
Proof.
  intros Hxs Hys Hin Hi Hopt Hline.
  assert (is_letter_key (option_assignment w xs ys) line) as Hkey.
  { apply is_letter_key_letters. exists i. split; [|done].
    apply lookup_lt_Some in Hopt. rewrite presented_length in Hopt. lia. }
  destruct (MultiChoiceQuestion_ask_answered self w xs ys [] line rest)
    as (correct & -> & Hc & _); [done..|by left|].
  destruct (Hc Hkey) as (selected & Hsel & _ & Hcorrect).
  unfold option_assignment in Hsel.
  rewrite Hline, (assign_letters_lookup _ i option Hi Hopt) in Hsel.
  injection Hsel as <-.
  destruct correct; eexists.
  - split; [rewrite bool_decide_eq_true_2 by (by apply Hcorrect); reflexivity|done].
  - split; [rewrite bool_decide_eq_false_2; [reflexivity|]|done].
    intros Hx. by apply Hcorrect in Hx.
Qed.

(** X7: the letter typed selects by position: the [i]-th letter stands for
    the option at index [i] of the shuffled list, and scores 1 exactly when
    that option is one of the right answers. *)
Theorem letter_selects_by_position (self : MultiChoiceQuestion) w xs ys
    i option line rest :
  heap w !! answers self = Some xs →
  heap w !! wrong_answers self = Some ys →
  stdin w = line :: rest →
  (i < 26)%nat →
  presented w xs ys !! i = Some option →
  lower line = letter i →
  dict_lookup (option_assignment w xs ys) (letter i) = Some option ∧
  ∃ w',
    MultiChoiceQuestion_ask self w =
      (Return (if bool_decide (option ∈ xs) then 1 else 0), w') ∧
    stdin w' = rest.
Proof.
  intros Hxs Hys Hin Hi Hopt Hline. split.
  - by apply assign_letters_lookup.
  - by eapply MultiChoiceQuestion_ask_letter.
Qed.

(** X8: with at most 26 options every stored option, right or wrong, has a
    letter: typing it scores 1 for a right answer and 0 for one that is
    not. *)
Theorem every_option_has_a_letter (self : MultiChoiceQuestion) w xs ys option :
  heap w !! answers self = Some xs →
  heap w !! wrong_answers self = Some ys →
  (length xs + length ys ≤ 26)%nat →
  option ∈ xs ++ ys →
  ∃ i, (i < length xs + length ys)%nat ∧
       presented w xs ys !! i = Some option ∧
       ∀ line rest events,
         lower line = letter i →
         (MultiChoiceQuestion_ask self
            (World (line :: rest) events (heap w) (rng w))).1
           = Return (if bool_decide (option ∈ xs) then 1 else 0).
Proof.
  intros Hxs Hys Hle Hopt.
  assert (option ∈ presented w xs ys) as Hin.
  { unfold presented. by rewrite shuffle_list_perm. }
  apply list_elem_of_lookup in Hin as [i Hi].
  pose proof (lookup_lt_Some _ _ _ Hi) as Hlt. rewrite presented_length in Hlt.
  exists i. split_and!; [done..|].
  intros line rest events Hline.
  destruct (MultiChoiceQuestion_ask_letter self
              (World (line :: rest) events (heap w) (rng w)) xs ys i option
              line rest) as (w' & -> & _); [done..|lia|done|done|done].
Qed.

End letters.

(** ** Exceptions *)

Section exceptions.
Context `{Runtime}.

Lemma Question_ask_end_of_input (self : Question) w :
  stdin w = [] →
  Question_ask self w =
    (Raise EOFError,
     World [] (trace w ++ [Print (question self); Prompt "Your answer: "])
           (heap w) (rng w)).
Proof.
  intros Hin. unfold Question_ask, input. run_step. rewrite Hin. simpl.
  unfold emit; simpl. by rewrite Hin, <- app_assoc.
Qed.

(** With its list references resolved, [ask] returns 0 or 1 or stops at the
    end of the input; the heap it leaves extends the one it found. *)
Lemma ask_resolved (q : question_object) w r w' :
  refs_resolve (heap w) q →
  ask q w = (r, w') →
  heap w `prefix_of` heap w' ∧
  match r with
  | Return score => score = 0 ∨ score = 1
  | Raise e => e = EOFError
  end.
Proof.
  intros Hrefs Hask.
  destruct (ask_frame q w r w' Hask) as [Hheap Hr]. split; [done|].
  destruct r as [score|e]; [done|].
  destruct q as [self|self]; simpl in *.
  - destruct Hrefs as [xs Hxs].
    destruct (stdin w) as [|line rest] eqn:Hin.
    + rewrite Question_ask_end_of_input in Hask by done. by injection Hask.
    + by rewrite (Question_ask_run self w line rest xs Hin Hxs) in Hask.
  - destruct Hrefs as [[xs Hxs] [ys Hys]].
    destruct (split_at_first_accepted (option_assignment w xs ys) (stdin w))
      as [Hall|(skipped & line & rest & Hin & Hsk & Hok)].
    + rewrite (MultiChoiceQuestion_ask_exhausted self w xs ys Hxs Hys Hall)
        in Hask. by injection Hask.
    + destruct (MultiChoiceQuestion_ask_answered self w xs ys skipped line rest)
        as (correct & Hrun & _); [done..|].
      by rewrite Hrun in Hask.
Qed.

Lemma refs_resolve_prefix h h' (q : question_object) :
  h `prefix_of` h' → refs_resolve h q → refs_resolve h' q.
Proof.
  intros [k ->]. destruct q as [self|self]; simpl.
  - intros [xs Hxs]. exists xs. by apply lookup_app_l_Some.
  - intros [[xs Hxs] [ys Hys]]. split; eexists; by apply lookup_app_l_Some.
Qed.

Lemma heading_heap question_separator first_question_num i w :
  heap (heading question_separator first_question_num i w).2 = heap w.
Proof. done. Qed.

Lemma ask_in_order_resolved question_separator first_question_num qs :
  ∀ i w e w',
    Forall (refs_resolve (heap w)) qs →
    ask_in_order question_separator first_question_num i qs w = (Raise e, w') →
    e = EOFError.
Proof.
  induction qs as [|q qs IH]; intros i w e w' Hrefs; simpl.
  - by run_step.
  - apply Forall_cons in Hrefs as [Hq Hqs]. unfold heading. run_step.
    destruct (ask q _) as [[result|e1] w1] eqn:Hask;
      apply ask_resolved in Hask as [Hheap Hr]; try done.
    + destruct (ask_in_order _ _ _ _ _) as [[results|e2] w2] eqn:Hrest; [done|].
      intros [= <- <-]. eapply IH; [|done].
      eapply Forall_impl; [done|]. intros q'. by apply refs_resolve_prefix.
    + by intros [= <- _].
Qed.

(** X9: [run_quiz] raises for two reasons only: [ValueError] for an empty list,
    and [EOFError] when the input ends before the quiz does.  Looking up
    the letter in [option_list] and indexing [questions] never fail. *)
Theorem run_quiz_raises_only questions score_per_question question_separator
    first_question_num w e w' :
  Forall (refs_resolve (heap w)) questions →
  run_quiz questions score_per_question question_separator first_question_num w
    = (Raise e, w') →
  (questions = [] ∧ e = ValueError "A quiz needs to have questions!" ∧ w' = w)
  ∨ (questions ≠ [] ∧ e = EOFError).
Proof.
  intros Hrefs.
  destruct (decide (questions = [])) as [->|Hne].
  - intros [= <- <-]. by left.
  - rewrite run_quiz_run by done. run_step.
    destruct (ask_in_order _ _ _ _ _) as [[results|e1] w1] eqn:Hrun; [done|].
    intros [= <- _]. right. split; [done|].
    by eapply ask_in_order_resolved.
Qed.

(** ** A quiz of free-text questions *)

Lemma ask_in_order_free_text question_separator first_question_num
    (qs : list Question) :
  ∀ i w,
    Forall (λ q : Question, is_Some (heap w !! answers q)) qs →
    ∃ w',
      ask_in_order question_separator first_question_num i (FreeText <$> qs) w =
        (if decide (length qs ≤ length (stdin w))%nat
         then Return (zip_with (mark (heap w)) qs (stdin w))
         else Raise EOFError, w') ∧
      heap w' = heap w ∧ rng w' = rng w ∧
      stdin w' = drop (length qs) (stdin w).
Proof.
  induction qs as [|q qs IH]; intros i w Hrefs.
  - exists w. simpl. by rewrite drop_0.
  - apply Forall_cons in Hrefs as [[xs Hxs] Hqs].
    simpl ask_in_order. unfold heading. run_step.
    destruct (stdin w) as [|line rest] eqn:Hin.
    + rewrite Question_ask_end_of_input by done. simpl.
      eexists. split; [reflexivity|done].
    + erewrite Question_ask_run; [|done..]. simpl.
      edestruct (IH (S i)) as (w' & -> & Hheap & Hrng & Hdrop); [done|].
      exists w'. simpl in *. split; [|done].
      unfold mark at 2. rewrite Hxs.
      repeat case_decide; try lia; done.
Qed.

(** X10: a quiz of [n] free-text questions reads one line per question.  Given
    at least [n] lines it returns the number of lines that match their
    question and leaves the other lines unread; given fewer it ends with
    [EOFError]. *)
Theorem free_text_quiz (qs : list Question) score_per_question
    question_separator first_question_num w :
  qs ≠ [] →
  Forall (λ q : Question, is_Some (heap w !! answers q)) qs →
  ∃ w',
    run_quiz (FreeText <$> qs) score_per_question question_separator
             first_question_num w =
      (if decide (length qs ≤ length (stdin w))%nat
       then Return (total (zip_with (mark (heap w)) qs (stdin w)))
       else Raise EOFError, w') ∧
    heap w' = heap w ∧
    stdin w' = drop (length qs) (stdin w).
Proof.
  intros Hne Hrefs.
  rewrite run_quiz_run by (by destruct qs).
  destruct (ask_in_order_free_text question_separator first_question_num qs
              0%nat w Hrefs) as (w1 & Hrun & Hheap & Hrng & Hdrop).
  run_step. rewrite Hrun.
  destruct (decide _); simpl; eexists; (split; [|split]); try reflexivity; done.
Qed.

End exceptions.

(** ** The case of the input does not matter *)

Section case.
Context `{Runtime}.

Lemma loop_body_case (self : MultiChoiceQuestion) option_list valid_input
    line1 line2 w1 w2 :
  heap w1 = heap w2 →
  lower line1 = lower line2 →
  (loop_body self option_list valid_input line1 w1).1 =
  (loop_body self option_list valid_input line2 w2).1.
Proof.
  intros Hheap Hline. unfold loop_body. rewrite Hline.
  destruct (contains (lower line2) (dict_keys option_list)).
  - run_step. destruct (dict_lookup _ _); simpl; [|done].
    rewrite Hheap. destruct (heap w2 !! _); simpl; [|done].
    by destruct (contains _ _).
  - destruct (contains (lower line2) (lower <$> _)); run_step; [|done].
    rewrite Hheap. destruct (heap w2 !! _); simpl; [|done].
    by destruct (contains _ _).
Qed.

Lemma while_loop_on_case (self : MultiChoiceQuestion) option_list pending1 :
  ∀ pending2 w1 w2,
    lower <$> pending1 = lower <$> pending2 →
    heap w1 = heap w2 → rng w1 = rng w2 →
    stdin w1 = pending1 → stdin w2 = pending2 →
    (while_loop_on self option_list (mret 0) false pending1 w1).1 =
    (while_loop_on self option_list (mret 0) false pending2 w2).1 ∧
    same_up_to_case
      (while_loop_on self option_list (mret 0) false pending1 w1).2
      (while_loop_on self option_list (mret 0) false pending2 w2).2.
Proof.
  unfold same_up_to_case.
  induction pending1 as [|line1 rest1 IH];
    intros [|line2 rest2] w1 w2 Hlines Hheap Hrng Hin1 Hin2; try done.
  { simpl. by rewrite Hin1, Hin2. }
  injection Hlines as Hline Hrest. simpl.
  set (w1a := World rest1 _ _ _). set (w2a := World rest2 _ _ _).
  pose proof (loop_body_case self option_list false line1 line2 w1a w2a
                Hheap Hline) as Hsame.
  destruct (loop_body _ _ _ line1 _) as [r1 w1b] eqn:Hbody1.
  destruct (loop_body _ _ _ line2 _) as [r2 w2b] eqn:Hbody2.
  simpl in Hsame. subst r2.
  pose proof (loop_body_frame _ _ _ _ _ _ _ Hbody1) as (Hs1 & Hh1 & Hg1).
  pose proof (loop_body_frame _ _ _ _ _ _ _ Hbody2) as (Hs2 & Hh2 & Hg2).
  subst w1a w2a. simpl in *.
  destruct r1 as [[score|valid_input']|e]; simpl.
  - rewrite Hs1, Hs2, Hh1, Hh2, Hg1, Hg2. done.
  - apply loop_body_end in Hbody1 as ->.
    apply IH; [exact Hrest|congruence..].
  - rewrite Hs1, Hs2, Hh1, Hh2, Hg1, Hg2. done.
Qed.

(** [ask] on two worlds that agree up to the case of the pending input
    ends the same way, in worlds that again agree up to case. *)
Lemma ask_case (q : question_object) w1 w2 :
  same_up_to_case w1 w2 →
  (ask q w1).1 = (ask q w2).1 ∧ same_up_to_case (ask q w1).2 (ask q w2).2.
Proof.
  intros (Hheap & Hrng & Hlines). destruct q as [self|self]; simpl.
  - unfold same_up_to_case.
    destruct (stdin w1) as [|line1 rest1] eqn:Hin1,
             (stdin w2) as [|line2 rest2] eqn:Hin2;
      rewrite ?fmap_cons in Hlines; try done.
    + by rewrite !Question_ask_end_of_input.
    + injection Hlines as Hline Hrest.
      destruct (heap w1 !! answers self) as [xs|] eqn:Hxs.
      * rewrite (Question_ask_run self w1 line1 rest1 xs),
          (Question_ask_run self w2 line2 rest2 xs) by congruence.
        simpl. by rewrite Hline.
      * unfold Question_ask, input. run_step. rewrite Hin1, Hin2. simpl.
        by rewrite <- Hheap, Hxs.
  - unfold MultiChoiceQuestion_ask.
    destruct (lists_resolve_or_not self w1) as [(xs & ys & Hxs & Hys)|Hbad].
    + rewrite (MultiChoiceQuestion_ask_then_run _ self w1 xs ys Hxs Hys).
      rewrite Hheap in Hxs, Hys.
      rewrite (MultiChoiceQuestion_ask_then_run _ self w2 xs ys Hxs Hys).
      cbv zeta. rewrite Hrng.
      rewrite !(while_loop_on_tail _ _ after_loop (mret 0)).
      apply while_loop_on_case; simpl; congruence.
    + rewrite (MultiChoiceQuestion_ask_then_invalid _ self w1 Hbad).
      rewrite Hheap in Hbad.
      rewrite (MultiChoiceQuestion_ask_then_invalid _ self w2 Hbad).
      by rewrite Hheap.
Qed.

Lemma ask_in_order_case question_separator first_question_num qs :
  ∀ i w1 w2,
    same_up_to_case w1 w2 →
    (ask_in_order question_separator first_question_num i qs w1).1 =
    (ask_in_order question_separator first_question_num i qs w2).1.
Proof.
  induction qs as [|q qs IH]; intros i w1 w2 Hsame; simpl; [done|].
  unfold heading. run_step.
  set (w1a := emit _ (emit _ (emit _ w1))). set (w2a := emit _ (emit _ (emit _ w2))).
  destruct (ask_case q w1a w2a Hsame) as [Hr Hw].
  destruct (ask q w1a) as [r1 w1b], (ask q w2a) as [r2 w2b]. simpl in *.
  subst r2. destruct r1 as [result|e]; [|done].
  specialize (IH (S i) w1b w2b Hw).
  destruct (ask_in_order _ _ _ _ w1b) as [r1 w1c],
           (ask_in_order _ _ _ _ w2b) as [r2 w2c].
  simpl in *. subst r2. by destruct r1.
Qed.

(** X11: answers are read without regard to case: on two inputs whose lines are
    equal after lowercasing, a question gives the same score, or stops the
    same way. *)
Theorem ask_ignores_case (q : question_object) w1 w2 :
  heap w1 = heap w2 →
  rng w1 = rng w2 →
  lower <$> stdin w1 = lower <$> stdin w2 →
  (ask q w1).1 = (ask q w2).1 ∧
  lower <$> stdin (ask q w1).2 = lower <$> stdin (ask q w2).2.
Proof.
  intros Hheap Hrng Hlines.
  destruct (ask_case q w1 w2) as (Hr & _ & _ & Hin); done.
Qed.

(** X12: the same for a whole quiz: the result of [run_quiz] depends on the
    lowercase form of the input only. *)
Theorem run_quiz_ignores_case questions score_per_question question_separator
    first_question_num w1 w2 :
  heap w1 = heap w2 →
  rng w1 = rng w2 →
  lower <$> stdin w1 = lower <$> stdin w2 →
  (run_quiz questions score_per_question question_separator
            first_question_num w1).1 =
  (run_quiz questions score_per_question question_separator
            first_question_num w2).1.
Proof.
  intros Hheap Hrng Hlines.
  destruct (decide (questions = [])) as [->|Hne]; [done|].
  rewrite !run_quiz_run by done. run_step.
  pose proof (ask_in_order_case question_separator first_question_num questions
                0%nat w1 w2) as Hsame.
  destruct (ask_in_order _ _ _ _ w1) as [r1 w1'],
           (ask_in_order _ _ _ _ w2) as [r2 w2'].
  simpl in Hsame. rewrite Hsame by done. by destruct r2.
Qed.

End case.

(** ** What a whole quiz leaves behind *)

Section quiz_frame.
Context `{Runtime}.

Lemma while_loop_on_stdin (self : MultiChoiceQuestion) option_list pending :
  ∀ w,
    stdin w = pending →
    stdin (while_loop_on self option_list (mret 0) false pending w).2
      `suffix_of` pending.
Proof.
  induction pending as [|line rest IH]; intros w Hin; simpl.
  - by rewrite Hin.
  - destruct (loop_body _ _ _ _ _) as [[[score|valid_input']|e] w2] eqn:Hbody;
      pose proof (loop_body_frame _ _ _ _ _ _ _ Hbody) as (Hstdin & _);
      simpl in *.
    + rewrite Hstdin. by apply suffix_cons_r.
    + apply loop_body_end in Hbody as ->. apply suffix_cons_r. by apply IH.
    + rewrite Hstdin. by apply suffix_cons_r.
Qed.

Lemma ask_stdin (q : question_object) w :
  stdin (ask q w).2 `suffix_of` stdin w.
Proof.
  destruct q as [self|self]; simpl.
  - destruct (stdin w) as [|line rest] eqn:Hin.
    + by rewrite Question_ask_end_of_input.
    + unfold Question_ask, input. run_step. rewrite Hin. simpl.
      destruct (heap w !! answers self); simpl; [|by apply suffix_cons_r].
      destruct (contains _ _); by apply suffix_cons_r.
  - unfold MultiChoiceQuestion_ask.
    destruct (lists_resolve_or_not self w) as [(xs & ys & Hxs & Hys)|Hbad].
    + rewrite (MultiChoiceQuestion_ask_then_run _ self w xs ys Hxs Hys).
      cbv zeta. rewrite (while_loop_on_tail _ _ _ (mret 0)).
      by apply while_loop_on_stdin.
    + by rewrite MultiChoiceQuestion_ask_then_invalid.
Qed.

Lemma ask_in_order_frame question_separator first_question_num qs :
  ∀ i w,
    heap w `prefix_of`
      heap (ask_in_order question_separator first_question_num i qs w).2 ∧
    stdin (ask_in_order question_separator first_question_num i qs w).2
      `suffix_of` stdin w.
Proof.
  induction qs as [|q qs IH]; intros i w; simpl; [done|].
  unfold heading. run_step.
  set (w0 := emit _ (emit _ (emit _ w))).
  pose proof (ask_stdin q w0) as Hstdin.
  destruct (ask q w0) as [[result|e] w1] eqn:Hask;
    apply ask_frame in Hask as [Hheap _]; simpl in *; [|done].
  destruct (IH (S i) w1) as [Hheap' Hstdin'].
  destruct (ask_in_order _ _ _ _ w1) as [[results|e] w2]; simpl in *;
    split; by etrans.
Qed.

(** X13: a quiz changes no answer list: every list object that existed before
    [run_quiz] is there afterwards with the same contents, however the run
    ends.  And it only reads forward: what is left on standard input is a
    suffix of what was there. *)
Theorem run_quiz_keeps_lists questions score_per_question question_separator
    first_question_num w :
  heap w `prefix_of`
    heap (run_quiz questions score_per_question question_separator
                   first_question_num w).2 ∧
  (∀ l xs,
     heap w !! l = Some xs →
     heap (run_quiz questions score_per_question question_separator
                    first_question_num w).2 !! l = Some xs) ∧
  stdin (run_quiz questions score_per_question question_separator
                  first_question_num w).2 `suffix_of` stdin w.
Proof.
  assert (heap w `prefix_of`
            heap (run_quiz questions score_per_question question_separator
                           first_question_num w).2 ∧
          stdin (run_quiz questions score_per_question question_separator
                          first_question_num w).2 `suffix_of` stdin w)
    as [Hheap Hstdin].
  { destruct (decide (questions = [])) as [->|Hne]; [done|].
    rewrite run_quiz_run by done. run_step.
    pose proof (ask_in_order_frame question_separator first_question_num
                  questions 0%nat w) as Hframe.
    by destruct (ask_in_order _ _ _ _ w) as [[results|e] w1]. }
  split_and!; [done| |done].
  intros l xs Hl. destruct Hheap as [k ->]. by apply lookup_app_l_Some.
Qed.

End quiz_frame.

(** ** Options stored more than once *)

Section duplicates.
Context `{Runtime}.

(** X14: with at most 26 options, an option stored several times (in one
    list or across the two) is shown as many times as it is stored, each
    time under a letter of its own. *)
Theorem options_shown_as_often_as_stored w xs ys option :
  (length xs + length ys ≤ 26)%nat →
  length (filter (λ shown, shown = option)
                 (dict_values (option_assignment w xs ys))) =
  (length (filter (λ stored, stored = option) xs)
   + length (filter (λ stored, stored = option) ys))%nat.
Proof.
  intros Hle. unfold option_assignment.
  rewrite assign_letters_values by (by rewrite presented_length).
  unfold presented. rewrite shuffle_list_perm.
  by rewrite filter_app, length_app.
Qed.

End duplicates.

(** ** The further properties on concrete quizzes *)

Section more_examples.
#[local] Existing Instance test_runtime.

Ltac compute_it :=
  unfold accepts, is_invalid, is_letter_key, is_option_text;
  repeat match goal with
         | |- Forall _ (_ :: _) => apply Forall_cons_2
         | |- Forall _ [] => apply Forall_nil_2
         | |- _ ∧ _ => split
         | |- is_Some _ => eexists; reflexivity
         end;
  try (apply (bool_decide_unpack _); vm_compute; exact I).

Lemma ask_feedback_matches_score_witness :
  (1 = 0 ∨ 1 = 1) ∧
  ∃ before,
    trace (World [] [Print "Capital of France?"; Prompt "Your answer: ";
                     Read "PARIS"; Print "Correct!"]
                 [["Paris"]; ["Apple"]; ["Banana"]] 0)
      = before ++ [Print (feedback 1)].
Proof.
  apply (ask_feedback_matches_score (FreeText capital) (quiz_world ["PARIS"] 0)).
  reflexivity.
Defined.

Lemma MultiChoiceQuestion_ask_returns_iff_witness :
  ((∃ score w',
      MultiChoiceQuestion_ask fruit (quiz_world ["x"; "B"; "more"] 1)
        = (Return score, w'))
     ↔ Exists (accepts (option_assignment (quiz_world ["x"; "B"; "more"] 1)
                          ["Apple"] ["Banana"]))
              (stdin (quiz_world ["x"; "B"; "more"] 1))) ∧
  ((∃ e w',
      MultiChoiceQuestion_ask fruit (quiz_world ["x"; "B"; "more"] 1)
        = (Raise e, w'))
     ↔ Forall (is_invalid (option_assignment (quiz_world ["x"; "B"; "more"] 1)
                             ["Apple"] ["Banana"]))
              (stdin (quiz_world ["x"; "B"; "more"] 1))) ∧
  (∀ e w',
     MultiChoiceQuestion_ask fruit (quiz_world ["x"; "B"; "more"] 1)
       = (Raise e, w') →
     e = EOFError).
Proof.
  apply (MultiChoiceQuestion_ask_returns_iff fruit
           (quiz_world ["x"; "B"; "more"] 1) ["Apple"] ["Banana"]);
    reflexivity.
Defined.

Lemma MultiChoiceQuestion_ask_dialogue_witness :
  ∃ score,
    MultiChoiceQuestion_ask fruit (quiz_world ["x"; "B"; "more"] 1) =
      (Return score,
       World ["more"]
         (trace (quiz_world ["x"; "B"; "more"] 1)
          ++ Print (full_question_text (question fruit)
                      (option_assignment (quiz_world ["x"; "B"; "more"] 1)
                         ["Apple"] ["Banana"]))
               :: (["x"] ≫= rejected)
          ++ [Prompt "Your answer: "; Read "B"; Print (feedback score)])
         (heap (quiz_world ["x"; "B"; "more"] 1)
          ++ [presented (quiz_world ["x"; "B"; "more"] 1) ["Apple"] ["Banana"]])
         (shuffle_list (rng (quiz_world ["x"; "B"; "more"] 1))
                       (["Apple"] ++ ["Banana"])).2).
Proof.
  apply (MultiChoiceQuestion_ask_dialogue fruit (quiz_world ["x"; "B"; "more"] 1)
           ["Apple"] ["Banana"] ["x"] "B" ["more"]);
    [reflexivity|reflexivity|reflexivity|compute_it|left; compute_it].
Defined.

Lemma option_assignment_first_26_witness :
  dict_keys (option_assignment (crowded_world ["a"])
               (replicate 20 "x") (replicate 7 "y"))
    = letter <$> seq 0 ((length (replicate 20 "x") + length (replicate 7 "y"))
                          `min` 26) ∧
  dict_values (option_assignment (crowded_world ["a"])
                 (replicate 20 "x") (replicate 7 "y"))
    = take 26 (presented (crowded_world ["a"])
                 (replicate 20 "x") (replicate 7 "y")) ∧
  NoDup (dict_keys (option_assignment (crowded_world ["a"])
                      (replicate 20 "x") (replicate 7 "y"))) ∧
  (∀ msg w',
     MultiChoiceQuestion_ask either (crowded_world ["a"])
       ≠ (Raise (ValueError msg), w')) ∧
  ∃ events,
    trace (MultiChoiceQuestion_ask either (crowded_world ["a"])).2 =
      trace (crowded_world ["a"])
      ++ Print (question either +:+ newline
                +:+ String.concat newline
                      (zip_with format_option
                         (letter <$> seq 0 ((length (replicate 20 "x")
                                             + length (replicate 7 "y")) `min` 26))
                         (take 26 (presented (crowded_world ["a"])
                                     (replicate 20 "x") (replicate 7 "y")))))
           :: events.
Proof.
  apply (option_assignment_first_26 either (crowded_world ["a"])
           (replicate 20 "x") (replicate 7 "y")); reflexivity.
Defined.

(** Twenty-seven options are stored, twenty-six are shown, and [ask] runs. *)
Example crowded_question :
  length (dict_items (option_assignment (crowded_world ["a"])
                        (replicate 20 "x") (replicate 7 "y"))) = 26%nat ∧
  (MultiChoiceQuestion_ask either (crowded_world ["a"])).1 = Return 1.
Proof. by vm_compute. Qed.

Lemma accepted_lines_whatever_the_shuffle_witness :
  (is_letter_key (option_assignment (quiz_world [] 1) ["Apple"] ["Banana"]) "B" ↔
     ∃ i, (i < length ["Apple"] + length ["Banana"])%nat ∧ lower "B" = letter i) ∧
  (is_option_text (option_assignment (quiz_world [] 1) ["Apple"] ["Banana"]) "B" ↔
     lower "B" ∈ lower <$> (["Apple"] ++ ["Banana"])) ∧
  (is_invalid (option_assignment (quiz_world [] 1) ["Apple"] ["Banana"]) "B" ↔
     (∀ i, (i < length ["Apple"] + length ["Banana"])%nat → lower "B" ≠ letter i) ∧
     lower "B" ∉ lower <$> (["Apple"] ++ ["Banana"])).
Proof.
  apply (accepted_lines_whatever_the_shuffle (quiz_world [] 1)
           ["Apple"] ["Banana"] "B").
  simpl. lia.
Defined.

Lemma typed_option_scored_by_text_witness :
  ∃ w',
    MultiChoiceQuestion_ask fruit (quiz_world ["apple"; "z"] 1) =
      (Return (if bool_decide (lower "apple" ∈ lower <$> ["Apple"]) then 1 else 0),
       w') ∧
    stdin w' = ["z"].
Proof.
  apply (typed_option_scored_by_text fruit (quiz_world ["apple"; "z"] 1)
           ["Apple"] ["Banana"] "apple" ["z"]);
    [reflexivity|reflexivity|simpl; lia|reflexivity| |compute_it].
  intros [|[|i]] Hi; [discriminate..|simpl in Hi; lia].
Defined.

Lemma letter_selects_by_position_witness :
  dict_lookup (option_assignment (quiz_world ["B"] 1) ["Apple"] ["Banana"])
              (letter 1) = Some "Apple" ∧
  ∃ w',
    MultiChoiceQuestion_ask fruit (quiz_world ["B"] 1) =
      (Return (if bool_decide ("Apple" ∈ ["Apple"]) then 1 else 0), w') ∧
    stdin w' = [].
Proof.
  apply (letter_selects_by_position fruit (quiz_world ["B"] 1)
           ["Apple"] ["Banana"] 1 "Apple" "B" []);
    [reflexivity|reflexivity|reflexivity|lia|reflexivity|reflexivity].
Defined.

Lemma every_option_has_a_letter_witness :
  ∃ i, (i < length ["Apple"] + length ["Banana"])%nat ∧
       presented (quiz_world [] 1) ["Apple"] ["Banana"] !! i = Some "Banana" ∧
       ∀ line rest events,
         lower line = letter i →
         (MultiChoiceQuestion_ask fruit
            (World (line :: rest) events (heap (quiz_world [] 1))
                   (rng (quiz_world [] 1)))).1
           = Return (if bool_decide ("Banana" ∈ ["Apple"]) then 1 else 0).
Proof.
  apply (every_option_has_a_letter fruit (quiz_world [] 1) ["Apple"] ["Banana"]
           "Banana");
    [reflexivity|reflexivity|simpl; lia|compute_it].
Defined.

Lemma run_quiz_raises_only_witness :
  ([FreeText capital; MultiChoice fruit] = [] ∧
   EOFError = ValueError "A quiz needs to have questions!" ∧
   (run_quiz [FreeText capital; MultiChoice fruit] 1 "-----------" 1
             (quiz_world ["paris"] 0)).2 = quiz_world ["paris"] 0)
  ∨ ([FreeText capital; MultiChoice fruit] ≠ [] ∧ EOFError = EOFError).
Proof.
  apply (run_quiz_raises_only [FreeText capital; MultiChoice fruit] 1
           "-----------" 1 (quiz_world ["paris"] 0));
    [compute_it|reflexivity].
Defined.

Lemma free_text_quiz_witness :
  ∃ w',
    run_quiz (FreeText <$> [capital; capital]) 1 "-----------" 1
             (quiz_world ["paris"; "rome"; "extra"] 0) =
      (if decide (length [capital; capital]
                  ≤ length (stdin (quiz_world ["paris"; "rome"; "extra"] 0)))%nat
       then Return (total (zip_with
                             (mark (heap (quiz_world ["paris"; "rome"; "extra"] 0)))
                             [capital; capital]
                             (stdin (quiz_world ["paris"; "rome"; "extra"] 0))))
       else Raise EOFError, w') ∧
    heap w' = heap (quiz_world ["paris"; "rome"; "extra"] 0) ∧
    stdin w' = drop (length [capital; capital])
                    (stdin (quiz_world ["paris"; "rome"; "extra"] 0)).
Proof.
  apply (free_text_quiz [capital; capital] 1 "-----------" 1
           (quiz_world ["paris"; "rome"; "extra"] 0));
    [discriminate|compute_it].
Defined.

Example free_text_quiz_run :
  (run_quiz (FreeText <$> [capital; capital]) 1 "-----------" 1
            (quiz_world ["paris"; "rome"; "extra"] 0)).1 = Return 1 ∧
  stdin (run_quiz (FreeText <$> [capital; capital]) 1 "-----------" 1
                  (quiz_world ["paris"; "rome"; "extra"] 0)).2 = ["extra"] ∧
  (run_quiz (FreeText <$> [capital; capital]) 1 "-----------" 1
            (quiz_world ["paris"] 0)).1 = Raise EOFError.
Proof. by vm_compute. Qed.

Lemma ask_ignores_case_witness :
  (ask (MultiChoice fruit) (quiz_world ["x"; "APPLE"] 0)).1 =
  (ask (MultiChoice fruit) (quiz_world ["X"; "apple"] 0)).1 ∧
  lower <$> stdin (ask (MultiChoice fruit) (quiz_world ["x"; "APPLE"] 0)).2 =
  lower <$> stdin (ask (MultiChoice fruit) (quiz_world ["X"; "apple"] 0)).2.
Proof.
  apply (ask_ignores_case (MultiChoice fruit) (quiz_world ["x"; "APPLE"] 0)
           (quiz_world ["X"; "apple"] 0)); reflexivity.
Defined.

Lemma run_quiz_ignores_case_witness :
  (run_quiz [FreeText capital; MultiChoice fruit] 1 "-----------" 1
            (quiz_world ["PARIS"; "A"] 0)).1 =
  (run_quiz [FreeText capital; MultiChoice fruit] 1 "-----------" 1
            (quiz_world ["paris"; "a"] 0)).1.
Proof.
  apply (run_quiz_ignores_case [FreeText capital; MultiChoice fruit] 1
           "-----------" 1 (quiz_world ["PARIS"; "A"] 0)
           (quiz_world ["paris"; "a"] 0)); reflexivity.
Defined.

Lemma options_shown_as_often_as_stored_witness :
  length (filter (λ shown, shown = "x")
                 (dict_values (option_assignment (quiz_world [] 1)
                                 ["x"; "y"; "x"] ["x"]))) =
  (length (filter (λ stored, stored = "x") ["x"; "y"; "x"])
   + length (filter (λ stored, stored = "x") ["x"]))%nat.
Proof.
  apply (options_shown_as_often_as_stored (quiz_world [] 1) ["x"; "y"; "x"] ["x"]
           "x").
  simpl. lia.
Defined.

End more_examples.
